(** * Key recovery service: master-key allocation and wallet-key issuing

    A shallow embedding of [app/krs.js]: the coroutines [notifyEndpoint],
    [sendDatabaseLowWarning], [provisionMasterKey], [getMasterXpub],
    [isExistingUser] and [provisionKey], over an explicit model of the two
    Mongo collections and of the outside world (mail queue, webhook
    transport, Mailchimp, key derivation, HMAC).

    Conventions.
    - A JavaScript value that is a string or [undefined] is an
    [option string]; [truthy] is JavaScript truthiness on such values.
    - Configuration tables ([supportedcoins], [requesterAuth.clients]) are
    finite maps over their own properties; a property read [obj[k]]
    converts [k] to a property key first, so [undefined] reads the
    property named "undefined".  The members every object inherits
    ([object_prototype_names]) are not in these maps.
    - A coroutine is a state-and-exception computation [Co A]; a [yield] of
    a promise is a bind, a rejected promise is a [Throw].
    - The collections are lists in insertion order; a document is
    identified by its position.  Queries themselves do not fail. *)

From Stdlib Require Import ZArith NArith.
From stdpp Require Import base option list strings pretty gmap.

Local Open Scope string_scope.
Local Open Scope N_scope.

(** ** JavaScript values *)

Definition truthy (v : option string) : bool :=
  match v with
  | Some s => negb (String.eqb s "")
  | None => false
  end.

(** [String(v)], also the property key [v] denotes in [obj[v]] and the
    text a template literal inserts for [v]. *)
Definition to_string (v : option string) : string :=
  match v with
  | Some s => s
  | None => "undefined"
  end.

(** [obj[k]] on a table of strings. *)
Definition get (obj : gmap string string) (k : option string) : option string :=
  obj !! to_string k.

(** ** Documents *)

Module MasterKey.
(** Modelled from the spec: the MasterKey model ([./models/masterkey]) is
    not part of the sources.  A document carries the fields krs.js
    queries, reads and updates; [keyCount] is the next unused child
    index, a number that starts at 0. *)
Record t := mk {
  coin : option string;
  customerId : option string;
  type : option string;
  pub : string;
  keyCount : N;
  signature : option string
  }.

(** The update document [{ coin, customerId, type }] of [findOneAndUpdate]. *)
Definition assign (c cid ty : option string) (k : t) : t :=
  {| coin := c; customerId := cid; type := ty;
     pub := pub k; keyCount := keyCount k; signature := signature k |}.

(** [{ $inc: { keyCount: 1 } }] *)
Definition inc_keyCount (k : t) : t :=
  {| coin := coin k; customerId := customerId k; type := type k;
     pub := pub k; keyCount := keyCount k + 1; signature := signature k |}.

(** The filter [{ coin: null, customerId: null, type: keyType }]. *)
Definition unassigned (keyType : option string) (k : t) : Prop :=
  coin k = None ∧ customerId k = None ∧ type k = keyType.

(** The filter [{ coin, customerId }]. *)
Definition assigned_to (c cid : option string) (k : t) : Prop :=
  coin k = c ∧ customerId k = cid.

#[global] Instance unassigned_dec keyType k : Decision (unassigned keyType k).
Proof. unfold unassigned. apply _. Defined.

#[global] Instance assigned_to_dec c cid k : Decision (assigned_to c cid k).
Proof. unfold assigned_to. apply _. Defined.
End MasterKey.

(** A value stored under a key of the [custom] object: whatever JSON the
  caller sent (kept as text), or a [Date] the service put there. *)
Inductive CustomValue :=
  | Json (text : string)
  | DateValue (time : Z).

Module WalletKey.
(** Modelled from the spec: the WalletKey model ([./models/walletkey]) is
  not part of the sources.  A document carries the properties krs.js
  reads and writes on it; [new WalletKey()] has none of them set. *)
Record t := mk {
  pub : option string;
  xpub : option string;
  masterKey : option string;
  path : option N;
  userEmail : option string;
  notificationURL : option string;
  custom : option (gmap string CustomValue);
  masterKeySig : option string
  }.

Definition new : t :=
  {| pub := None; xpub := None; masterKey := None; path := None;
     userEmail := None; notificationURL := None; custom := None;
     masterKeySig := None |}.

Definition set_pub v (k : t) : t :=
  {| pub := v; xpub := xpub k; masterKey := masterKey k; path := path k;
     userEmail := userEmail k; notificationURL := notificationURL k;
     custom := custom k; masterKeySig := masterKeySig k |}.
Definition set_masterKey v (k : t) : t :=
  {| pub := pub k; xpub := xpub k; masterKey := v; path := path k;
     userEmail := userEmail k; notificationURL := notificationURL k;
     custom := custom k; masterKeySig := masterKeySig k |}.
Definition set_path v (k : t) : t :=
  {| pub := pub k; xpub := xpub k; masterKey := masterKey k; path := v;
     userEmail := userEmail k; notificationURL := notificationURL k;
     custom := custom k; masterKeySig := masterKeySig k |}.
Definition set_userEmail v (k : t) : t :=
  {| pub := pub k; xpub := xpub k; masterKey := masterKey k; path := path k;
     userEmail := v; notificationURL := notificationURL k;
     custom := custom k; masterKeySig := masterKeySig k |}.
Definition set_notificationURL v (k : t) : t :=
  {| pub := pub k; xpub := xpub k; masterKey := masterKey k; path := path k;
     userEmail := userEmail k; notificationURL := v;
     custom := custom k; masterKeySig := masterKeySig k |}.
Definition set_custom v (k : t) : t :=
  {| pub := pub k; xpub := xpub k; masterKey := masterKey k; path := path k;
     userEmail := userEmail k; notificationURL := notificationURL k;
     custom := v; masterKeySig := masterKeySig k |}.
Definition set_masterKeySig v (k : t) : t :=
  {| pub := pub k; xpub := xpub k; masterKey := masterKey k; path := path k;
     userEmail := userEmail k; notificationURL := notificationURL k;
     custom := custom k; masterKeySig := v |}.
End WalletKey.

(** ** Requests, responses, configuration *)

Module Request.
(** [req.body] *)
Record t := mk {
  customerId : option string;
  coin : option string;
  userEmail : option string;
  notificationURL : option string;
  custom : option (gmap string CustomValue);
  disableKRSEmail : bool;
  requesterId : option string;
  requesterSecret : option string
  }.
End Request.

Module Response.
Record t := mk {
  masterKey : string;
  path : option N;
  userEmail : option string;
  custom : option (gmap string CustomValue);
  masterKeySig : option string;
  pub : option string
  }.
End Response.

Module RequesterAuth.
Record t := mk {
  required : bool;
  clients : gmap string string
  }.
End RequesterAuth.

Module Config.
(** [process.config] *)
Record t := mk {
  supportedcoins : gmap string string;
  lowKeyWarningLevels : list N;
  disableAllKRSEmail : bool;
  neverReuseMasterKey : bool;
  requesterAuth : option RequesterAuth.t;
  provider_id : string;
  provider_secret : string;
  sendMailChimpNotKRSEMail : bool;
  name : string;
  serviceurl : string;
  adminemail : string;
  mailchimp_moreWalletsTags : string;
  mailchimp_firstWalletTags : string
  }.
End Config.

(** ** The outside world *)

(** The body sent to the webhook. *)
Module Payload.
Record t := mk {
  userEmail : option string;
  provider : string;
  state : string;
  xpub : option string;
  hmac : string
  }.
End Payload.

(** The template context handed to [utils.sendMailQ]. *)
Inductive MailContext :=
  | DatabaseLow (availableKeys : N) (type : option string)
  | NewKey (pub : option string) (servicename serviceurl adminemail : string)
         (useremail : option string).

(** What a Mailchimp call resolves to. *)
Module McRes.
Record t := mk { status : Z; Msg : string }.
End McRes.

Module World.
(** The collaborators krs.js calls but does not define.  A [bool] tells
  whether the promise resolves; an [option] is [None] when the call
  throws. *)
Record t := mk {
  deriveChildKey : string → string → string → string;
  hmac_sha256_hex : string → string → string;
  sendMailQ : option string → string → string → MailContext → bool;
  post : option string → Payload.t → bool;
  createMember : option string → option McRes.t;
  addTagToMember : option string → string → option McRes.t;
  now : Z
  }.
End World.

(** ** Errors, events, state *)

(** What a coroutine can throw: [utils.ErrorResponse(status, message)], a
    [TypeError] of the runtime, or the rejection of a collaborator's
    promise. *)
Inductive Error :=
  | ErrorResponse (status : Z) (message : string)
  | TypeError (message : string)
  | Rejected (what : string).

(** What a request does that is visible from outside, in program order:
  the writes to the collections and the calls to the collaborators
  (recorded when the call is made, whatever its outcome). *)
Inductive Event :=
  | FindOneAndUpdate (id : nat) (coin customerId : option string)
  | Save (key : WalletKey.t)
  | UpdateInc (id : nat)
  | SendMailQ (to : option string) (subject template : string) (ctx : MailContext)
  | Post (url : option string) (payload : Payload.t)
  | CreateMember (email : option string)
  | AddTagToMember (email : option string) (tags : string)
  | ConsoleLog (message : string).

Module DB.
Record t := mk {
  masterKeys : list MasterKey.t;
  walletKeys : list WalletKey.t;
  events : list Event
  }.

Definition set_masterKeys f (s : t) : t :=
  {| masterKeys := f (masterKeys s); walletKeys := walletKeys s; events := events s |}.
Definition set_walletKeys f (s : t) : t :=
  {| masterKeys := masterKeys s; walletKeys := f (walletKeys s); events := events s |}.
Definition log (e : Event) (s : t) : t :=
  {| masterKeys := masterKeys s; walletKeys := walletKeys s; events := (events s ++ [e])%list |}.
End DB.

(** ** The coroutine monad *)

Inductive Outcome (A : Type) :=
  | Return (a : A)
  | Throw (e : Error).
Arguments Return {A} a.
Arguments Throw {A} e.

Definition Co (A : Type) : Type := DB.t → Outcome A * DB.t.

#[global] Instance Co_ret : MRet Co := λ A a s, (Return a, s).

#[global] Instance Co_bind : MBind Co := λ A B k m s,
  match m s with
  | (Return a, s') => k a s'
  | (Throw e, s') => (Throw e, s')
  end.

Definition throw {A} (e : Error) : Co A := λ s, (Throw e, s).

(** [try { body } catch (e) { handler }] *)
Definition try_catch {A} (body : Co A) (handler : Error → Co A) : Co A := λ s,
  match body s with
  | (Return a, s') => (Return a, s')
  | (Throw e, s') => handler e s'
  end.

Definition read {A} (f : DB.t → A) : Co A := λ s, (Return (f s), s).
Definition write (f : DB.t → DB.t) : Co unit := λ s, (Return (), f s).
Definition emit (e : Event) : Co unit := write (DB.log e).

(** A promise of the outside world: resolves or rejects. *)
Definition settle (resolves : bool) (what : string) : Co unit :=
  if resolves then mret () else throw (Rejected what).

(** [console.log] *)
Definition console_log (message : string) : Co unit := emit (ConsoleLog message).

Definition error_text (e : Error) : string :=
  match e with
  | ErrorResponse _ message => message
  | TypeError message => "TypeError: " +:+ message
  | Rejected what => "Error: " +:+ what
  end.

(** ** The collections (Mongoose queries) *)

Module Store.
(** [MasterKey.findOneAndUpdate(filter, update)]: the first document that
  matches is updated; the document as it was before the update is
  returned, [null] when none matches. *)
Definition findOneAndUpdate (keyType coin customerId : option string)
  : Co (option (nat * MasterKey.t)) := λ s,
  match list_find (MasterKey.unassigned keyType) (DB.masterKeys s) with
  | Some (i, k) =>
      (Return (Some (i, k)),
       DB.log (FindOneAndUpdate i coin customerId)
         (DB.set_masterKeys (alter (MasterKey.assign coin customerId keyType) i) s))
  | None => (Return None, s)
  end.

(** [MasterKey.countDocuments({ coin: null, customerId: null, type })] *)
Definition countDocuments (keyType : option string) : Co N :=
  read (λ s, N.of_nat (length (filter (MasterKey.unassigned keyType) (DB.masterKeys s)))).

(** [MasterKey.findOne({ coin, customerId })] *)
Definition findOne (coin customerId : option string) : Co (option (nat * MasterKey.t)) :=
  read (λ s, list_find (MasterKey.assigned_to coin customerId) (DB.masterKeys s)).

(** [masterKey.update({ $inc: { keyCount: 1 } })] *)
Definition update_inc (id : nat) : Co unit :=
  _ ← write (DB.set_masterKeys (alter MasterKey.inc_keyCount id));
  emit (UpdateInc id).

(** [WalletKey.findOne({ userEmail: email })] *)
Definition findOne_userEmail (email : option string) : Co (option (nat * WalletKey.t)) :=
  read (λ s, list_find (λ k, WalletKey.userEmail k = email) (DB.walletKeys s)).

(** [key.save()] *)
Definition save (key : WalletKey.t) : Co unit :=
  _ ← write (DB.set_walletKeys (λ l, (l ++ [key])%list));
  emit (Save key).
End Store.

(** ** krs.js *)

Section KRS.
Variable config : Config.t.
Variable world : World.t.

Definition sendMailQ (to : option string) (subject template : string)
    (ctx : MailContext) : Co unit :=
  _ ← emit (SendMailQ to subject template ctx);
  settle (World.sendMailQ world to subject template ctx) "sendMailQ".

Definition request_post (url : option string) (payload : Payload.t) : Co unit :=
  _ ← emit (Post url payload);
  settle (World.post world url payload) "request.post".

Definition createMember (email : option string) : Co McRes.t :=
  _ ← emit (CreateMember email);
  match World.createMember world email with
  | Some res => mret res
  | None => throw (Rejected "mailchimp.createMember")
  end.

Definition addTagToMember (email : option string) (tags : string) : Co McRes.t :=
  _ ← emit (AddTagToMember email tags);
  match World.addTagToMember world email tags with
  | Some res => mret res
  | None => throw (Rejected "mailchimp.addTagToMember")
  end.

(** [hmac.update(xpub)] accepts a string; on [undefined] it throws. *)
Definition generateHMAC (xpub : option string) : Co string :=
  match xpub with
  | Some data =>
      mret (World.hmac_sha256_hex world (Config.provider_secret config) data)
  | None =>
      throw (TypeError "The data argument must be of type string or an instance of Buffer, TypedArray, or DataView. Received undefined")
  end.

Definition notifyEndpoint (key : WalletKey.t) (state : string) : Co unit :=
  let notificationURL := WalletKey.notificationURL key in
  let userEmail := WalletKey.userEmail key in
  let xpub := WalletKey.xpub key in
  hmac ← generateHMAC xpub;
  try_catch
    (request_post notificationURL
       {| Payload.userEmail := userEmail;
          Payload.provider := Config.provider_id config;
          Payload.state := state;
          Payload.xpub := xpub;
          Payload.hmac := hmac |})
    (λ e, console_log "error connecting to webhook").

Definition sendDatabaseLowWarning (availableKeys : N) (type : option string) : Co unit :=
  sendMailQ (Some (Config.adminemail config))
    "URGENT: Please replenish the master key database"
    "databaselow"
    (DatabaseLow availableKeys type).

Definition provisionMasterKey (coin customerId : option string) : Co (nat * MasterKey.t) :=
  let keyType := get (Config.supportedcoins config) coin in
  key ← Store.findOneAndUpdate keyType coin customerId;
  match key with
  | None =>
      throw (ErrorResponse 500 ("no available " +:+ to_string keyType +:+ " keys"))
  | Some key =>
      availableKeys ← Store.countDocuments keyType;
      _ ← (if bool_decide (availableKeys ∈ Config.lowKeyWarningLevels config)
              && negb (Config.disableAllKRSEmail config)
           then sendDatabaseLowWarning availableKeys keyType
           else mret ());
      mret key
  end.

(** Both calls of [provisionMasterKey] hand its promise back without a
  [yield]; the coroutine's own promise then follows it, which is the
  computation itself here. *)
Definition getMasterXpub (coin customerId : option string) : Co (nat * MasterKey.t) :=
  if Config.neverReuseMasterKey config then provisionMasterKey coin customerId
  else
    masterKey ← Store.findOne coin customerId;
    match masterKey with
    | None => provisionMasterKey coin customerId
    | Some masterKey => mret masterKey
    end.

Definition isExistingUser (email : option string) : Co bool :=
  key ← Store.findOne_userEmail email;
  mret (bool_decide (is_Some key)).

(** The [requesterAuth] guard of [provisionKey] (lines 131-139). *)
Definition checkRequester (req : Request.t) : Co unit :=
  match Config.requesterAuth config with
  | Some auth =>
      if RequesterAuth.required auth then
        if negb (truthy (Request.requesterId req))
           && negb (truthy (Request.requesterSecret req))
        then throw (ErrorResponse 401
          "this krs requires you to send a requesterId and requesterSecret to get a key")
        else
          let secret := get (RequesterAuth.clients auth) (Request.requesterId req) in
          if negb (truthy secret)
             || negb (bool_decide (secret = Request.requesterSecret req))
          then throw (ErrorResponse 401 "invalid requesterSecret")
          else mret ()
      else mret ()
  | None => mret ()
  end.

(** The owner e-mail of [provisionKey] (lines 171-189). *)
Definition notifyOwner (req : Request.t) (key : WalletKey.t) (existingUser : bool)
  : Co unit :=
  if negb (Request.disableKRSEmail req)
     && negb (Config.disableAllKRSEmail config)
     && negb (Config.sendMailChimpNotKRSEMail config)
  then
    try_catch
      (sendMailQ (WalletKey.userEmail key)
         "BitGo Wallet: ACTION REQUIRED"
         (if existingUser then "existingUserNewKeyTemplate" else "newkeytemplate")
         (NewKey (WalletKey.pub key) (Config.name config) (Config.serviceurl config)
            (Config.adminemail config) (WalletKey.userEmail key)))
      (λ e, throw (ErrorResponse 503 "Problem sending email"))
  else mret ().

(** The Mailchimp synchronisation of [provisionKey] (lines 191-215). *)
Definition syncMailchimp (userEmail : option string) (existingUser : bool) : Co unit :=
  if Config.sendMailChimpNotKRSEMail config then
    try_catch
      (mcRes ← createMember userEmail;
       _ ← (if negb (McRes.status mcRes =? 200)%Z
            then console_log ("Mailchimp User Not Created. " +:+ McRes.Msg mcRes)
            else mret ());
       mcRes ← (if existingUser then
                  mcRes ← addTagToMember userEmail (Config.mailchimp_moreWalletsTags config);
                  _ ← console_log ("Adding[" +:+ Config.mailchimp_moreWalletsTags config
                                     +:+ "] to existing user.");
                  mret mcRes
                else
                  mcRes ← addTagToMember userEmail (Config.mailchimp_firstWalletTags config);
                  _ ← console_log ("Adding[" +:+ Config.mailchimp_firstWalletTags config
                                     +:+ "] to existing user.");
                  mret mcRes);
       if negb (McRes.status mcRes =? 200)%Z
       then console_log ("Mailchimp API Error[" +:+ McRes.Msg mcRes
                           +:+ "] - Tags not added[" +:+ McRes.Msg mcRes +:+ "]")
       else mret ())
      (λ e,
         _ ← console_log ("Failed to create Mailchimp lists and tags. " +:+ error_text e);
         throw (ErrorResponse 503 "Problem calling mailchimp"))
  else mret ().

Definition provisionKey (req : Request.t) : Co Response.t :=
  let key := WalletKey.new in
  let customerId := Request.customerId req in
  if negb (truthy customerId)
  then throw (ErrorResponse 400 "user or enterprise ID required") else
  let coin := Request.coin req in
  if negb (truthy coin)
  then throw (ErrorResponse 400 "coin type required") else
  if negb (truthy (get (Config.supportedcoins config) coin))
  then throw (ErrorResponse 400 "unsupported coin") else
  let userEmail := Request.userEmail req in
  if negb (truthy userEmail)
  then throw (ErrorResponse 400 "email required") else
  existingUser ← isExistingUser userEmail;
  _ ← checkRequester req;
  '(masterKey, key) ←
    (if bool_decide (get (Config.supportedcoins config) coin = Some "xlm") then
       masterKey ← provisionMasterKey coin customerId;
       mret (masterKey, WalletKey.set_pub (Some (MasterKey.pub masterKey.2)) key)
     else
       masterKey ← getMasterXpub coin customerId;
       mret (masterKey,
             WalletKey.set_pub
               (Some (World.deriveChildKey world (MasterKey.pub masterKey.2)
                        (pretty (MasterKey.keyCount masterKey.2)) "xpub"))
               key));
  let key := WalletKey.set_masterKey (Some (MasterKey.pub masterKey.2)) key in
  let key := WalletKey.set_path (Some (MasterKey.keyCount masterKey.2)) key in
  let key := WalletKey.set_userEmail (Request.userEmail req) key in
  let key := WalletKey.set_notificationURL (Request.notificationURL req) key in
  let key := WalletKey.set_custom (Some (default ∅ (Request.custom req))) key in
  let key := WalletKey.set_custom
               (insert "created" (DateValue (World.now world)) <$> WalletKey.custom key)
               key in
  _ ← Store.save key;
  let key := if truthy (MasterKey.signature masterKey.2)
             then WalletKey.set_masterKeySig (MasterKey.signature masterKey.2) key
             else key in
  _ ← Store.update_inc masterKey.1;
  _ ← notifyOwner req key existingUser;
  _ ← syncMailchimp userEmail existingUser;
  _ ← (if truthy (WalletKey.notificationURL key)
       then notifyEndpoint key "created"
       else mret ());
  let response :=
    {| Response.masterKey := MasterKey.pub masterKey.2;
       Response.path := WalletKey.path key;
       Response.userEmail := WalletKey.userEmail key;
       Response.custom := WalletKey.custom key;
       Response.masterKeySig := MasterKey.signature masterKey.2;
       Response.pub := WalletKey.pub key |} in
  mret response.
End KRS.


(** ** The lookups of krs.js *)

Module PubQuery.
(** [req.body] of [isUserKey] *)
Record t := mk {
  pub : option string;
  requesterId : option string;
  requesterSecret : option string
}.
End PubQuery.

Module PubAnswer.
Record t := mk {
  pub : option string;
  isWalletKey : bool
}.
End PubAnswer.

Module EmailQuery.
(** [req.body] of [isUser] *)
Record t := mk {
  email : option string;
  requesterId : option string;
  requesterSecret : option string
}.
End EmailQuery.

Module EmailAnswer.
Record t := mk {
  email : option string;
  isUser : bool
}.
End EmailAnswer.

Section Lookups.
Variable config : Config.t.

(** The [requesterAuth] guard as [isUserKey] and [isUser] spell it out
    again (lines 245-253 and 287-295), on the two body fields it reads. *)
Definition requireRequester (requesterId requesterSecret : option string) : Co unit :=
  match Config.requesterAuth config with
  | Some auth =>
      if RequesterAuth.required auth then
        if negb (truthy requesterId) && negb (truthy requesterSecret)
        then throw (ErrorResponse 401
          "this krs requires you to send a requesterId and requesterSecret to get a key")
        else
          let secret := get (RequesterAuth.clients auth) requesterId in
          if negb (truthy secret) || negb (bool_decide (secret = requesterSecret))
          then throw (ErrorResponse 401 "invalid requesterSecret")
          else mret ()
      else mret ()
  | None => mret ()
  end.

(** [WalletKey.findOne({ pub })] *)
Definition findOne_pub (pub : option string) : Co (option (nat * WalletKey.t)) :=
  read (λ s, list_find (λ k, WalletKey.pub k = pub) (DB.walletKeys s)).

Definition isUserKey (req : PubQuery.t) : Co PubAnswer.t :=
  let pub := PubQuery.pub req in
  if negb (truthy pub)
  then throw (ErrorResponse 400 "pub is required") else
  _ ← requireRequester (PubQuery.requesterId req) (PubQuery.requesterSecret req);
  key ← findOne_pub pub;
  let response :=
    match key with
    | None => {| PubAnswer.pub := pub; PubAnswer.isWalletKey := false |}
    | Some (_, key) =>
        {| PubAnswer.pub := WalletKey.pub key; PubAnswer.isWalletKey := true |}
    end in
  mret response.

Definition isUser (req : EmailQuery.t) : Co EmailAnswer.t :=
  let email := EmailQuery.email req in
  if negb (truthy email)
  then throw (ErrorResponse 400 "email is required") else
  _ ← requireRequester (EmailQuery.requesterId req) (EmailQuery.requesterSecret req);
  key ← Store.findOne_userEmail email;
  let response :=
    match key with
    | None => {| EmailAnswer.email := email; EmailAnswer.isUser := false |}
    | Some _ => {| EmailAnswer.email := email; EmailAnswer.isUser := true |}
    end in
  mret response.
End Lookups.

(** * Views of a request

    Names for the intermediate stores and values of [provisionMasterKey]
    and [provisionKey], used to state what they do. *)

(** [appends P m]: [m] leaves both collections as they are and only adds
    events that satisfy [P]. *)
Definition appends {A} (P : Event → Prop) (m : Co A) : Prop :=
  ∀ s r s', m s = (r, s') →
    DB.masterKeys s' = DB.masterKeys s
    ∧ DB.walletKeys s' = DB.walletKeys s
    ∧ ∃ evs, DB.events s' = (DB.events s ++ evs)%list ∧ Forall P evs.

Definition is_post (e : Event) : bool :=
  match e with Post _ _ => true | _ => false end.

Definition is_store_write (e : Event) : bool :=
  match e with
  | FindOneAndUpdate _ _ _ | Save _ | UpdateInc _ => true
  | _ => false
  end.

(** Mail, Mailchimp and console traffic. *)
Definition notice (e : Event) : Prop :=
  is_post e = false ∧ is_store_write e = false.

Definition low_supply_subject : string :=
  "URGENT: Please replenish the master key database".

(** The store right after [findOneAndUpdate] assigned document [i]. *)
Definition claimed (i : nat) (keyType coin customerId : option string) (s : DB.t) : DB.t :=
  DB.log (FindOneAndUpdate i coin customerId)
    (DB.set_masterKeys (alter (MasterKey.assign coin customerId keyType) i) s).

(** [countDocuments] on a store. *)
Definition remaining (keyType : option string) (s : DB.t) : N :=
  N.of_nat (length (filter (MasterKey.unassigned keyType) (DB.masterKeys s))).

(** No unassigned master key of the type is left. *)
Definition exhausted (keyType : option string) (s : DB.t) : Prop :=
  Forall (λ k, ¬ MasterKey.unassigned keyType k) (DB.masterKeys s).

(** The document a selection returns and the one the store holds at its
    position agree on everything but the assignment. *)
Definition same_key (a b : MasterKey.t) : Prop :=
  MasterKey.pub a = MasterKey.pub b
  ∧ MasterKey.keyCount a = MasterKey.keyCount b
  ∧ MasterKey.signature a = MasterKey.signature b.

(** The store after [key.save()] and [masterKey.update(...)]. *)
Definition persisted (i : nat) (key : WalletKey.t) (s : DB.t) : DB.t :=
  DB.log (UpdateInc i)
    (DB.set_masterKeys (alter MasterKey.inc_keyCount i)
       (DB.log (Save key) (DB.set_walletKeys (λ l, (l ++ [key])%list) s))).

(** The same document once the signature was copied onto it. *)
Definition signed (masterKey : MasterKey.t) (key : WalletKey.t) : WalletKey.t :=
  if truthy (MasterKey.signature masterKey)
  then WalletKey.set_masterKeySig (MasterKey.signature masterKey) key
  else key.

(** The request presents a secret and the clients table, read at the
    presented [requesterId], holds that secret. *)
Definition presents_credentials (auth : RequesterAuth.t) (req : Request.t) : Prop :=
  ∃ secret,
    Request.requesterSecret req = Some secret
    ∧ get (RequesterAuth.clients auth) (Request.requesterId req) = Some secret.

Section Views.
Variable config : Config.t.
Variable world : World.t.

(** The low-supply mail for a count. *)
Definition low_supply_mail (n : N) (keyType : option string) : Event :=
  SendMailQ (Some (Config.adminemail config)) low_supply_subject "databaselow"
    (DatabaseLow n keyType).

(** Everything [provisionKey] does once the key is saved and counted
    (lines 171-219). *)
Definition side_effects (req : Request.t) (key : WalletKey.t) (existingUser : bool)
  : Co unit :=
  _ ← notifyOwner config world req key existingUser;
  _ ← syncMailchimp config world (Request.userEmail req) existingUser;
  if truthy (WalletKey.notificationURL key)
  then notifyEndpoint config world key "created"
  else mret ().

(** The master key a request draws on (lines 143-151). *)
Definition is_xlm (req : Request.t) : bool :=
  bool_decide (get (Config.supportedcoins config) (Request.coin req) = Some "xlm").

Definition select (req : Request.t) : Co (nat * MasterKey.t) :=
  if is_xlm req
  then provisionMasterKey config world (Request.coin req) (Request.customerId req)
  else getMasterXpub config world (Request.coin req) (Request.customerId req).

Definition wallet_pub (req : Request.t) (masterKey : MasterKey.t) : string :=
  if is_xlm req then MasterKey.pub masterKey
  else World.deriveChildKey world (MasterKey.pub masterKey)
         (pretty (MasterKey.keyCount masterKey)) "xpub".

(** The [custom] object of the issued key. *)
Definition stamped (req : Request.t) : gmap string CustomValue :=
  <["created" := DateValue (World.now world)]> (default ∅ (Request.custom req)).

(** The document handed to [key.save()]. *)
Definition issued (req : Request.t) (masterKey : MasterKey.t) : WalletKey.t :=
  {| WalletKey.pub := Some (wallet_pub req masterKey);
     WalletKey.xpub := None;
     WalletKey.masterKey := Some (MasterKey.pub masterKey);
     WalletKey.path := Some (MasterKey.keyCount masterKey);
     WalletKey.userEmail := Request.userEmail req;
     WalletKey.notificationURL := Request.notificationURL req;
     WalletKey.custom := Some (stamped req);
     WalletKey.masterKeySig := None |}.

Definition response (req : Request.t) (masterKey : MasterKey.t) : Response.t :=
  {| Response.masterKey := MasterKey.pub masterKey;
     Response.path := Some (MasterKey.keyCount masterKey);
     Response.userEmail := Request.userEmail req;
     Response.custom := Some (stamped req);
     Response.masterKeySig := MasterKey.signature masterKey;
     Response.pub := Some (wallet_pub req masterKey) |}.

(** The requests that pass lines 109-126. *)
Definition well_formed (req : Request.t) : bool :=
  truthy (Request.customerId req)
  && truthy (Request.coin req)
  && truthy (get (Config.supportedcoins config) (Request.coin req))
  && truthy (Request.userEmail req).

Definition existing_user (req : Request.t) (s : DB.t) : bool :=
  bool_decide (is_Some (list_find (λ k, WalletKey.userEmail k = Request.userEmail req)
                          (DB.walletKeys s))).

(** The request has to claim a master key: single-use coin, reuse switched
    off, or nothing assigned to the pair yet. *)
Definition needs_fresh_key (req : Request.t) (s : DB.t) : Prop :=
  is_xlm req = true
  ∨ Config.neverReuseMasterKey config = true
  ∨ list_find (MasterKey.assigned_to (Request.coin req) (Request.customerId req))
      (DB.masterKeys s) = None.

(** ** Three statements the code does not meet as they are worded *)

(** A single-use request leaves every [keyCount] as it was. *)
Definition single_use_as_stated (req : Request.t) (s : DB.t) : Prop :=
  ∀ resp s',
    provisionKey config world req s = (Return resp, s') →
    is_xlm req = true →
    Response.pub resp = Some (Response.masterKey resp)
    ∧ Response.path resp = Some 0
    ∧ MasterKey.keyCount <$> DB.masterKeys s' = MasterKey.keyCount <$> DB.masterKeys s.

(** With the owner e-mail out of the picture, a request that persisted its
    WalletKey returns normally whatever the webhook and Mailchimp do. *)
Definition best_effort_as_stated (req : Request.t) (s : DB.t) : Prop :=
  ∀ r s',
    provisionKey config world req s = (r, s') →
    (∀ to subject template ctx, World.sendMailQ world to subject template ctx = true) →
    DB.walletKeys s' ≠ DB.walletKeys s →
    ∃ resp, r = Return resp.

(** Every claim that leaves a count on the warning list sends the
    low-supply mail. *)
Definition low_supply_as_stated (coin customerId : option string) (s : DB.t) : Prop :=
  ∀ key s',
    provisionMasterKey config world coin customerId s = (Return key, s') →
    let keyType := get (Config.supportedcoins config) coin in
    let n := remaining keyType s' in
    n ∈ Config.lowKeyWarningLevels config →
    low_supply_mail n keyType ∈ DB.events s'.
End Views.

(** * A small deployment *)

Module Example.
Definition config : Config.t :=
  {| Config.supportedcoins := <["btc" := "xpub"]> (<["xlm" := "xlm"]> ∅);
     Config.lowKeyWarningLevels := [0; 5];
     Config.disableAllKRSEmail := false;
     Config.neverReuseMasterKey := false;
     Config.requesterAuth :=
       Some {| RequesterAuth.required := true;
               RequesterAuth.clients := {[ "bitgo" := "s3cret" ]} |};
     Config.provider_id := "krs";
     Config.provider_secret := "provider-secret";
     Config.sendMailChimpNotKRSEMail := false;
     Config.name := "KRS";
     Config.serviceurl := "https://krs.example";
     Config.adminemail := "admin@krs.example";
     Config.mailchimp_moreWalletsTags := "more-wallets";
     Config.mailchimp_firstWalletTags := "first-wallet" |}.

(** The same deployment with all service mail switched off. *)
Definition quiet : Config.t :=
  {| Config.supportedcoins := Config.supportedcoins config;
     Config.lowKeyWarningLevels := Config.lowKeyWarningLevels config;
     Config.disableAllKRSEmail := true;
     Config.neverReuseMasterKey := false;
     Config.requesterAuth := Config.requesterAuth config;
     Config.provider_id := Config.provider_id config;
     Config.provider_secret := Config.provider_secret config;
     Config.sendMailChimpNotKRSEMail := false;
     Config.name := Config.name config;
     Config.serviceurl := Config.serviceurl config;
     Config.adminemail := Config.adminemail config;
     Config.mailchimp_moreWalletsTags := Config.mailchimp_moreWalletsTags config;
     Config.mailchimp_firstWalletTags := Config.mailchimp_firstWalletTags config |}.

(** The same deployment with Mailchimp in place of the owner e-mail. *)
Definition with_mailchimp : Config.t :=
  {| Config.supportedcoins := Config.supportedcoins config;
     Config.lowKeyWarningLevels := Config.lowKeyWarningLevels config;
     Config.disableAllKRSEmail := false;
     Config.neverReuseMasterKey := false;
     Config.requesterAuth := Config.requesterAuth config;
     Config.provider_id := Config.provider_id config;
     Config.provider_secret := Config.provider_secret config;
     Config.sendMailChimpNotKRSEMail := true;
     Config.name := Config.name config;
     Config.serviceurl := Config.serviceurl config;
     Config.adminemail := Config.adminemail config;
     Config.mailchimp_moreWalletsTags := Config.mailchimp_moreWalletsTags config;
     Config.mailchimp_firstWalletTags := Config.mailchimp_firstWalletTags config |}.

(** Mail goes out, the webhook endpoint and Mailchimp are unreachable. *)
Definition world : World.t :=
  {| World.deriveChildKey := λ masterPub path _, masterPub +:+ "/" +:+ path;
     World.hmac_sha256_hex := λ secret data, "hmac:" +:+ secret +:+ ":" +:+ data;
     World.sendMailQ := λ _ _ _ _, true;
     World.post := λ _ _, false;
     World.createMember := λ _, None;
     World.addTagToMember := λ _ _, None;
     World.now := 1700000000000%Z |}.

Definition pool_key (type pub : string) : MasterKey.t :=
  {| MasterKey.coin := None; MasterKey.customerId := None;
     MasterKey.type := Some type; MasterKey.pub := pub;
     MasterKey.keyCount := 0; MasterKey.signature := None |}.

(** A key of customer "c1" for btc that already issued two wallet keys. *)
Definition used_key : MasterKey.t :=
  {| MasterKey.coin := Some "btc"; MasterKey.customerId := Some "c1";
     MasterKey.type := Some "xpub"; MasterKey.pub := "xpub-A";
     MasterKey.keyCount := 2; MasterKey.signature := Some "sig-A" |}.

Definition db : DB.t :=
  {| DB.masterKeys := [used_key; pool_key "xlm" "G-1"; pool_key "xpub" "xpub-B"];
     DB.walletKeys := [];
     DB.events := [] |}.

(** The pool holds nothing of type "xpub". *)
Definition drained : DB.t :=
  {| DB.masterKeys := [used_key; pool_key "xlm" "G-1"];
     DB.walletKeys := [];
     DB.events := [] |}.

Definition request (customerId coin : string) : Request.t :=
  {| Request.customerId := Some customerId;
     Request.coin := Some coin;
     Request.userEmail := Some "owner@example.com";
     Request.notificationURL := None;
     Request.custom := Some {[ "created" := Json "1999"; "label" := Json "savings" ]};
     Request.disableKRSEmail := false;
     Request.requesterId := Some "bitgo";
     Request.requesterSecret := Some "s3cret" |}.

(** The same request with a webhook to call. *)
Definition with_webhook (req : Request.t) : Request.t :=
  {| Request.customerId := Request.customerId req;
     Request.coin := Request.coin req;
     Request.userEmail := Request.userEmail req;
     Request.notificationURL := Some "https://hooks.example/krs";
     Request.custom := Request.custom req;
     Request.disableKRSEmail := Request.disableKRSEmail req;
     Request.requesterId := Request.requesterId req;
     Request.requesterSecret := Request.requesterSecret req |}.

(** The same request without its secret. *)
Definition without_secret (req : Request.t) : Request.t :=
  {| Request.customerId := Request.customerId req;
     Request.coin := Request.coin req;
     Request.userEmail := Request.userEmail req;
     Request.notificationURL := Request.notificationURL req;
     Request.custom := Request.custom req;
     Request.disableKRSEmail := Request.disableKRSEmail req;
     Request.requesterId := Request.requesterId req;
     Request.requesterSecret := None |}.

(** A wallet key document as a caller of [notifyEndpoint] could hold it. *)
Definition hooked_key : WalletKey.t :=
  {| WalletKey.pub := Some "xpub-A/2"; WalletKey.xpub := Some "xpub-A/2";
     WalletKey.masterKey := Some "xpub-A"; WalletKey.path := Some 2;
     WalletKey.userEmail := Some "owner@example.com";
     WalletKey.notificationURL := Some "https://hooks.example/krs";
     WalletKey.custom := None; WalletKey.masterKeySig := None |}.
End Example.
(** * More views: mail, ownership, lookups *)

Definition is_mail (e : Event) : bool :=
  match e with SendMailQ _ _ _ _ => true | _ => false end.

Definition is_owner_mail (e : Event) : bool :=
  match e with SendMailQ _ _ _ (NewKey _ _ _ _ _) => true | _ => false end.

(** A master key that belongs to somebody. *)
Definition owned (k : MasterKey.t) : Prop :=
  MasterKey.coin k ≠ None ∨ MasterKey.customerId k ≠ None.

(** The clients table holds a non-empty secret under the presented
    [requesterId], and it is the one presented. *)
Definition holds_secret (auth : RequesterAuth.t) (requesterId requesterSecret : option string)
  : Prop :=
  ∃ secret,
    secret ≠ ""
    ∧ requesterSecret = Some secret
    ∧ get (RequesterAuth.clients auth) requesterId = Some secret.

(** How a master key document may differ after a request: the key
    material stays, the counter stays or goes up by one, and a key that
    belongs to somebody keeps its owner. *)
Definition evolves (k k' : MasterKey.t) : Prop :=
  MasterKey.pub k' = MasterKey.pub k
  ∧ MasterKey.type k' = MasterKey.type k
  ∧ MasterKey.signature k' = MasterKey.signature k
  ∧ (MasterKey.keyCount k' = MasterKey.keyCount k
     ∨ MasterKey.keyCount k' = MasterKey.keyCount k + 1)
  ∧ (owned k →
     MasterKey.coin k' = MasterKey.coin k
     ∧ MasterKey.customerId k' = MasterKey.customerId k).

(** Whether the mail queue takes the mail an event stands for. *)
Definition mail_resolves (world : World.t) (e : Event) : bool :=
  match e with
  | SendMailQ to subject template ctx => World.sendMailQ world to subject template ctx
  | _ => true
  end.

(** The request claims a key whether or not one is assigned already. *)
Definition always_fresh (config : Config.t) (req : Request.t) : Prop :=
  is_xlm config req = true ∨ Config.neverReuseMasterKey config = true.

Section MoreViews.
Variable config : Config.t.

(** Whoever sends these two fields may use the service: no requester
    authentication is required, or the table holds the secret. *)
Definition authorised (requesterId requesterSecret : option string) : Prop :=
  ∀ auth,
    Config.requesterAuth config = Some auth →
    RequesterAuth.required auth = true →
    holds_secret auth requesterId requesterSecret.

(** The condition of lines 171-173. *)
Definition mail_enabled (req : Request.t) : bool :=
  negb (Request.disableKRSEmail req)
  && negb (Config.disableAllKRSEmail config)
  && negb (Config.sendMailChimpNotKRSEMail config).

Definition owner_template (existingUser : bool) : string :=
  if existingUser then "existingUserNewKeyTemplate" else "newkeytemplate".

(** The mail of lines 175-185 for an issued key. *)
Definition owner_mail (key : WalletKey.t) (existingUser : bool) : Event :=
  SendMailQ (WalletKey.userEmail key) "BitGo Wallet: ACTION REQUIRED"
    (owner_template existingUser)
    (NewKey (WalletKey.pub key) (Config.name config) (Config.serviceurl config)
       (Config.adminemail config) (WalletKey.userEmail key)).
End MoreViews.

(** * More of the small deployment *)

Module Scenario.
(** The mail queue is down; everything else as in [Example.world]. *)
Definition no_mail : World.t :=
  {| World.deriveChildKey := World.deriveChildKey Example.world;
     World.hmac_sha256_hex := World.hmac_sha256_hex Example.world;
     World.sendMailQ := λ _ _ _ _, false;
     World.post := World.post Example.world;
     World.createMember := World.createMember Example.world;
     World.addTagToMember := World.addTagToMember Example.world;
     World.now := World.now Example.world |}.

(** Two single-use keys and one derivable key in the pool. *)
Definition db : DB.t :=
  {| DB.masterKeys :=
       [Example.pool_key "xlm" "G-1"; Example.pool_key "xpub" "xpub-B";
        Example.pool_key "xlm" "G-2"];
     DB.walletKeys := [];
     DB.events := [] |}.

Definition credentials_pub (pub : string) : PubQuery.t :=
  {| PubQuery.pub := Some pub;
     PubQuery.requesterId := Some "bitgo";
     PubQuery.requesterSecret := Some "s3cret" |}.

Definition credentials_email (email : string) : EmailQuery.t :=
  {| EmailQuery.email := Some email;
     EmailQuery.requesterId := Some "bitgo";
     EmailQuery.requesterSecret := Some "s3cret" |}.

Definition anonymous_pub (pub : option string) : PubQuery.t :=
  {| PubQuery.pub := pub; PubQuery.requesterId := None; PubQuery.requesterSecret := None |}.

Definition anonymous_email (email : option string) : EmailQuery.t :=
  {| EmailQuery.email := email;
     EmailQuery.requesterId := None; EmailQuery.requesterSecret := None |}.

(** The request with the owner e-mail switched off by the caller. *)
Definition without_mail (req : Request.t) : Request.t :=
  {| Request.customerId := Request.customerId req;
     Request.coin := Request.coin req;
     Request.userEmail := Request.userEmail req;
     Request.notificationURL := Request.notificationURL req;
     Request.custom := Request.custom req;
     Request.disableKRSEmail := true;
     Request.requesterId := Request.requesterId req;
     Request.requesterSecret := Request.requesterSecret req |}.

(** The store after one request, whatever its outcome. *)
Definition after (config : Config.t) (world : World.t) (req : Request.t) (s : DB.t) : DB.t :=
  (provisionKey config world req s).2.
End Scenario.

(** * Table reads and the prototype; the selection as it is worded *)

(** The names every object inherits from [Object.prototype].  A read
    [obj[k]] at one of them yields a function (or the prototype itself),
    never [undefined]; [get] covers the own properties of a table, so a
    read that misses in [get] misses in the program for every key outside
    this list. *)
Definition object_prototype_names : list string :=
  ["constructor"; "hasOwnProperty"; "isPrototypeOf"; "propertyIsEnumerable";
   "toLocaleString"; "toString"; "valueOf"; "__proto__";
   "__defineGetter__"; "__defineSetter__"; "__lookupGetter__"; "__lookupSetter__"].

Definition inherited (k : option string) : Prop :=
  to_string k ∈ object_prototype_names.

Section Selection.
Variable config : Config.t.
Variable world : World.t.


End Selection.

(** * Reasoning about coroutines *)

Section Monad.
Context {A B : Type}.
Implicit Types (m : Co A) (k : A → Co B) (s : DB.t).

Lemma bind_run m k s :
  (m ≫= k) s =
  match m s with
  | (Return a, s1) => k a s1
  | (Throw e, s1) => (Throw e, s1)
  end.
Proof. reflexivity. Qed.

Lemma bind_Return m k s a s1 : m s = (Return a, s1) → (m ≫= k) s = k a s1.
Proof. intros H. rewrite bind_run, H. reflexivity. Qed.

Lemma bind_Throw m k s e s1 : m s = (Throw e, s1) → (m ≫= k) s = (Throw e, s1).
Proof. intros H. rewrite bind_run, H. reflexivity. Qed.

(** A bind ends the way its second half ends, or throws in its first. *)
Lemma bind_inv m k s r s' :
  (m ≫= k) s = (r, s') →
  (∃ a s1, m s = (Return a, s1) ∧ k a s1 = (r, s'))
  ∨ (∃ e, m s = (Throw e, s') ∧ r = Throw e).
Proof.
  rewrite bind_run. destruct (m s) as [[a|e] s1]; intros H.
  - left. eauto.
  - right. exists e. by injection H as <- <-.
Qed.

Lemma bind_Return_inv m k s b s' :
  (m ≫= k) s = (Return b, s') →
  ∃ a s1, m s = (Return a, s1) ∧ k a s1 = (Return b, s').
Proof.
  intros H. apply bind_inv in H as [H|[e [_ H]]]; [done | discriminate].
Qed.
End Monad.

Lemma try_catch_inv {A} (body : Co A) handler s r s' :
  try_catch body handler s = (r, s') →
  (∃ a, body s = (Return a, s') ∧ r = Return a)
  ∨ (∃ e s1, body s = (Throw e, s1) ∧ handler e s1 = (r, s')).
Proof.
  unfold try_catch. destruct (body s) as [[a|e] s1]; intros H.
  - left. exists a. by injection H as <- <-.
  - right. eauto.
Qed.

(** ** What a computation may touch *)

Section Appends.
Context (P : Event → Prop).

Lemma appends_mret {A} (a : A) : appends P (mret a).
Proof.
  intros s r s' [= <- <-]. repeat split. exists []. by rewrite app_nil_r.
Qed.

Lemma appends_throw {A} e : appends P (@throw A e).
Proof.
  intros s r s' [= <- <-]. repeat split. exists []. by rewrite app_nil_r.
Qed.

Lemma appends_read {A} (f : DB.t → A) : appends P (read f).
Proof.
  intros s r s' [= <- <-]. repeat split. exists []. by rewrite app_nil_r.
Qed.

Lemma appends_emit e : P e → appends P (emit e).
Proof.
  intros He s r s' [= <- <-]. repeat split. exists [e]. split; [done|]. by constructor.
Qed.

Lemma appends_bind {A B} (m : Co A) (k : A → Co B) :
  appends P m → (∀ a, appends P (k a)) → appends P (m ≫= k).
Proof.
  intros Hm Hk s r s' H.
  apply bind_inv in H as [(a & s1 & H1 & H2)|(e & H1 & _)].
  - destruct (Hm _ _ _ H1) as (M1 & W1 & evs1 & E1 & F1).
    destruct (Hk a _ _ _ H2) as (M2 & W2 & evs2 & E2 & F2).
    split; [congruence|]. split; [congruence|].
    exists (evs1 ++ evs2)%list. split.
    + by rewrite E2, E1, app_assoc.
    + by apply Forall_app.
  - exact (Hm _ _ _ H1).
Qed.

Lemma appends_try_catch {A} (body : Co A) handler :
  appends P body → (∀ e, appends P (handler e)) → appends P (try_catch body handler).
Proof.
  intros Hb Hh s r s' H.
  apply try_catch_inv in H as [(a & H1 & _)|(e & s1 & H1 & H2)].
  - exact (Hb _ _ _ H1).
  - destruct (Hb _ _ _ H1) as (M1 & W1 & evs1 & E1 & F1).
    destruct (Hh e _ _ _ H2) as (M2 & W2 & evs2 & E2 & F2).
    split; [congruence|]. split; [congruence|].
    exists (evs1 ++ evs2)%list. split.
    + by rewrite E2, E1, app_assoc.
    + by apply Forall_app.
Qed.

Lemma appends_if {A} (b : bool) (m1 m2 : Co A) :
  appends P m1 → appends P m2 → appends P (if b then m1 else m2).
Proof. by destruct b. Qed.

Lemma appends_settle b what : appends P (settle b what).
Proof. unfold settle. apply appends_if; [apply appends_mret | apply appends_throw]. Qed.
End Appends.

Lemma appends_weaken {A} (P Q : Event → Prop) (m : Co A) :
  (∀ e, P e → Q e) → appends P m → appends Q m.
Proof.
  intros HPQ Hm s r s' H. destruct (Hm _ _ _ H) as (? & ? & evs & ? & F).
  repeat split; try done. exists evs. split; [done|].
  eapply Forall_impl; eauto.
Qed.

(** * The pieces of a provisioning request *)

Section Pieces.
Variable config : Config.t.
Variable world : World.t.

(** The whole of [provisionMasterKey], one store to the next. *)
Lemma provisionMasterKey_run coin customerId s :
  provisionMasterKey config world coin customerId s =
  let keyType := get (Config.supportedcoins config) coin in
  match list_find (MasterKey.unassigned keyType) (DB.masterKeys s) with
  | None =>
      (Throw (ErrorResponse 500 ("no available " +:+ to_string keyType +:+ " keys")), s)
  | Some (i, key) =>
      let s1 := claimed i keyType coin customerId s in
      let n := remaining keyType s1 in
      if bool_decide (n ∈ Config.lowKeyWarningLevels config)
         && negb (Config.disableAllKRSEmail config)
      then
        (if World.sendMailQ world (Some (Config.adminemail config))
              low_supply_subject "databaselow" (DatabaseLow n keyType)
         then Return (i, key) else Throw (Rejected "sendMailQ"),
         DB.log (low_supply_mail config n keyType) s1)
      else (Return (i, key), s1)
  end.
Proof.
  unfold provisionMasterKey. rewrite bind_run. unfold Store.findOneAndUpdate.
  destruct (list_find _ _) as [[i key]|]; [|reflexivity].
  cbv zeta. rewrite bind_run. unfold Store.countDocuments, read.
  fold (claimed i (get (Config.supportedcoins config) coin) coin customerId s).
  fold (remaining (get (Config.supportedcoins config) coin)
          (claimed i (get (Config.supportedcoins config) coin) coin customerId s)).
  rewrite bind_run.
  destruct (bool_decide _ && negb _); [|reflexivity].
  unfold sendDatabaseLowWarning, sendMailQ. rewrite bind_run. unfold emit, write.
  fold low_supply_subject. unfold settle.
  destruct (World.sendMailQ _ _ _ _ _); reflexivity.
Qed.

(** A successful [provisionMasterKey]: which document, and what changed. *)
Lemma provisionMasterKey_Return coin customerId s i key s' :
  provisionMasterKey config world coin customerId s = (Return (i, key), s') →
  let keyType := get (Config.supportedcoins config) coin in
  list_find (MasterKey.unassigned keyType) (DB.masterKeys s) = Some (i, key)
  ∧ DB.masterKeys s' = alter (MasterKey.assign coin customerId keyType) i (DB.masterKeys s)
  ∧ DB.walletKeys s' = DB.walletKeys s
  ∧ ∃ evs, DB.events s' =
           (DB.events s ++ FindOneAndUpdate i coin customerId :: evs)%list
           ∧ Forall (λ e, ∃ n, e = low_supply_mail config n keyType) evs.
Proof.
  rewrite provisionMasterKey_run. cbv zeta.
  destruct (list_find _ _) as [[j key']|]; [|discriminate].
  destruct (bool_decide _ && negb _).
  - destruct (World.sendMailQ _ _ _ _ _); [|discriminate].
    intros [= -> -> <-]. repeat split.
    eexists [_]. split.
    + simpl. by rewrite <- app_assoc.
    + repeat constructor. eauto.
  - intros [= -> -> <-]. repeat split. exists []. split; [done | constructor].
Qed.

Lemma provisionMasterKey_lookup coin customerId s i key s' :
  provisionMasterKey config world coin customerId s = (Return (i, key), s') →
  DB.masterKeys s !! i = Some key
  ∧ DB.masterKeys s' !! i =
    Some (MasterKey.assign coin customerId (get (Config.supportedcoins config) coin) key).
Proof.
  intros H. apply provisionMasterKey_Return in H as (Hf & Hm & _).
  apply list_find_Some in Hf as (Hi & _). split; [done|].
  rewrite Hm, list_lookup_alter_eq, Hi. reflexivity.
Qed.

Lemma getMasterXpub_run coin customerId s :
  getMasterXpub config world coin customerId s =
  if Config.neverReuseMasterKey config
  then provisionMasterKey config world coin customerId s
  else match list_find (MasterKey.assigned_to coin customerId) (DB.masterKeys s) with
       | Some masterKey => (Return masterKey, s)
       | None => provisionMasterKey config world coin customerId s
       end.
Proof.
  unfold getMasterXpub. destruct (Config.neverReuseMasterKey config); [done|].
  rewrite bind_run. unfold Store.findOne, read.
  by destruct (list_find _ _).
Qed.

(** Whatever [getMasterXpub] returns sits in the store at the position it
    names, possibly with its assignment just written. *)
Lemma getMasterXpub_lookup coin customerId s i key s' :
  getMasterXpub config world coin customerId s = (Return (i, key), s') →
  ∃ key', DB.masterKeys s' !! i = Some key' ∧ same_key key' key.
Proof.
  rewrite getMasterXpub_run.
  assert (∀ s0, provisionMasterKey config world coin customerId s0 = (Return (i, key), s') →
            ∃ key', DB.masterKeys s' !! i = Some key' ∧ same_key key' key) as Hp.
  { intros s0 H. apply provisionMasterKey_lookup in H as [_ H].
    eexists. split; [exact H | done]. }
  destruct (Config.neverReuseMasterKey config); [apply Hp|].
  destruct (list_find _ _) as [[j key0]|] eqn:Hf; [|apply Hp].
  intros [= -> -> <-]. apply list_find_Some in Hf as (Hi & _).
  exists key. by split.
Qed.

Lemma isExistingUser_run email s :
  isExistingUser email s =
  (Return (bool_decide (is_Some (list_find (λ k, WalletKey.userEmail k = email)
                                   (DB.walletKeys s)))), s).
Proof. reflexivity. Qed.

(** The requester guard reads the configuration and the request only. *)
Lemma checkRequester_state req s r s' :
  checkRequester config req s = (r, s') → s' = s.
Proof.
  unfold checkRequester.
  destruct (Config.requesterAuth config) as [auth|]; [|by intros [= _ <-]].
  destruct (RequesterAuth.required auth); [|by intros [= _ <-]].
  destruct (_ && _); [by intros [= _ <-]|].
  destruct (_ || _); by intros [= _ <-].
Qed.

End Pieces.

Ltac appends_step :=
  first
    [ apply appends_bind; [|intros ?]
    | apply appends_try_catch; [|intros ?]
    | apply appends_mret
    | apply appends_throw
    | apply appends_settle
    | apply appends_read
    | apply appends_emit; done
    | match goal with
      | |- appends _ (if ?b then _ else _) => destruct b
      | |- appends _ (match ?x with _ => _ end) => destruct x
      end ].

Ltac solve_appends := repeat appends_step.

Section SideEffects.
Variable config : Config.t.
Variable world : World.t.

Lemma notifyOwner_appends req key existingUser :
  appends notice (notifyOwner config world req key existingUser).
Proof. unfold notifyOwner, sendMailQ. solve_appends. Qed.

Lemma syncMailchimp_appends userEmail existingUser :
  appends notice (syncMailchimp config world userEmail existingUser).
Proof.
  unfold syncMailchimp, createMember, addTagToMember, console_log. solve_appends.
Qed.

Lemma notifyEndpoint_appends key state :
  appends (λ e, is_store_write e = false) (notifyEndpoint config world key state).
Proof.
  unfold notifyEndpoint, generateHMAC, request_post, console_log. solve_appends.
Qed.

(** What [notifyEndpoint] does, in full. *)
Lemma notifyEndpoint_run key state s :
  notifyEndpoint config world key state s =
  match WalletKey.xpub key with
  | None =>
      (Throw (TypeError "The data argument must be of type string or an instance of Buffer, TypedArray, or DataView. Received undefined"), s)
  | Some data =>
      let payload :=
        {| Payload.userEmail := WalletKey.userEmail key;
           Payload.provider := Config.provider_id config;
           Payload.state := state;
           Payload.xpub := Some data;
           Payload.hmac :=
             World.hmac_sha256_hex world (Config.provider_secret config) data |} in
      let s1 := DB.log (Post (WalletKey.notificationURL key) payload) s in
      (Return (),
       if World.post world (WalletKey.notificationURL key) payload then s1
       else DB.log (ConsoleLog "error connecting to webhook") s1)
  end.
Proof.
  unfold notifyEndpoint, generateHMAC. rewrite bind_run.
  destruct (WalletKey.xpub key) as [data|]; [|reflexivity].
  cbv beta iota delta [mret Co_ret try_catch request_post settle mbind Co_bind
                       emit write console_log].
  destruct (World.post _ _ _); reflexivity.
Qed.

Lemma side_effects_appends req key existingUser :
  appends (λ e, is_store_write e = false)
    (side_effects config world req key existingUser).
Proof.
  unfold side_effects.
  apply appends_bind; [|intros _; apply appends_bind; [|intros _]].
  - eapply appends_weaken; [|apply notifyOwner_appends]. by intros e [_ ?].
  - eapply appends_weaken; [|apply syncMailchimp_appends]. by intros e [_ ?].
  - destruct (truthy _); [apply notifyEndpoint_appends | apply appends_mret].
Qed.

(** The whole of [provisionKey] for a request that passes validation. *)
Lemma provisionKey_run req s :
  well_formed config req = true →
  provisionKey config world req s =
  match checkRequester config req s with
  | (Throw e, s0) => (Throw e, s0)
  | (Return _, s0) =>
      match select config world req s0 with
      | (Throw e, s1) => (Throw e, s1)
      | (Return (i, masterKey), s1) =>
          let key := issued config world req masterKey in
          match side_effects config world req (signed masterKey key)
                  (existing_user req s) (persisted i key s1) with
          | (Throw e, s2) => (Throw e, s2)
          | (Return _, s2) => (Return (response config world req masterKey), s2)
          end
      end
  end.
Proof.
  unfold well_formed. rewrite !andb_true_iff. intros [[[H1 H2] H3] H4].
  unfold provisionKey. rewrite H1, H2, H3, H4. cbn [negb].
  rewrite bind_run, isExistingUser_run. fold (existing_user req s).
  rewrite bind_run. destruct (checkRequester config req s) as [[[]|e] s0]; [|done].
  rewrite bind_run. unfold select. fold (is_xlm config req).
  destruct (is_xlm config req) eqn:Hx; rewrite bind_run;
    (match goal with
     | |- context [provisionMasterKey ?c ?w ?a ?b s0] =>
         destruct (provisionMasterKey c w a b s0) as [[[i masterKey]|e] s1]
     | |- context [getMasterXpub ?c ?w ?a ?b s0] =>
         destruct (getMasterXpub c w a b s0) as [[[i masterKey]|e] s1]
     end; [|done]);
    cbn [mret Co_ret fst snd]; cbv zeta;
    rewrite bind_run; unfold Store.save at 1; rewrite bind_run; cbn [write emit];
    rewrite bind_run; unfold Store.update_inc at 1; rewrite bind_run; cbn [write emit];
    unfold side_effects, signed, issued, response, persisted, wallet_pub, stamped;
    rewrite Hx; rewrite !bind_run;
    destruct (truthy (MasterKey.signature masterKey));
    cbv beta iota delta
      [WalletKey.set_pub WalletKey.set_masterKey WalletKey.set_path
       WalletKey.set_userEmail WalletKey.set_notificationURL WalletKey.set_custom
       WalletKey.set_masterKeySig
       WalletKey.pub WalletKey.xpub WalletKey.masterKey WalletKey.path
       WalletKey.userEmail WalletKey.notificationURL WalletKey.custom
       WalletKey.masterKeySig WalletKey.new fmap option_fmap option_map];
    (destruct (notifyOwner _ _ _ _ _ _) as [[[]|?] ?]; [|done]);
    rewrite !bind_run;
    (destruct (syncMailchimp _ _ _ _ _) as [[[]|?] ?]; [|done]);
    rewrite ?bind_run;
    (destruct (truthy (Request.notificationURL req)); [|done]);
    destruct (notifyEndpoint _ _ _ _ _) as [[[]|?] ?]; done.
Qed.
End SideEffects.

(** * Requests as a whole *)

Section Requests.
Variable config : Config.t.
Variable world : World.t.

(** A request that fails validation is answered 400 and touches nothing. *)
Lemma provisionKey_invalid req s :
  well_formed config req = false →
  ∃ message, provisionKey config world req s = (Throw (ErrorResponse 400 message), s).
Proof.
  unfold well_formed, provisionKey. intros H.
  destruct (truthy (Request.customerId req)); [|by eexists].
  destruct (truthy (Request.coin req)); [|by eexists].
  destruct (truthy (get _ _)); [|by eexists].
  destruct (truthy (Request.userEmail req)); [discriminate | by eexists].
Qed.

Lemma provisionMasterKey_frame coin customerId s r s' :
  provisionMasterKey config world coin customerId s = (r, s') →
  DB.walletKeys s' = DB.walletKeys s
  ∧ ∃ evs, DB.events s' = (DB.events s ++ evs)%list ∧ Forall (λ e, is_post e = false) evs.
Proof.
  rewrite provisionMasterKey_run. cbv zeta.
  destruct (list_find _ _) as [[i key]|].
  - destruct (bool_decide _ && negb _); intros [= _ <-]; (split; [done|]).
    + eexists [_; _]. split; [cbn; by rewrite <- app_assoc | by repeat constructor].
    + eexists [_]. split; [done | by repeat constructor].
  - intros [= _ <-]. split; [done|]. exists []. by rewrite app_nil_r.
Qed.

Lemma select_frame req s r s' :
  select config world req s = (r, s') →
  DB.walletKeys s' = DB.walletKeys s
  ∧ ∃ evs, DB.events s' = (DB.events s ++ evs)%list ∧ Forall (λ e, is_post e = false) evs.
Proof.
  unfold select. destruct (is_xlm config req); [apply provisionMasterKey_frame|].
  rewrite getMasterXpub_run.
  destruct (Config.neverReuseMasterKey config); [apply provisionMasterKey_frame|].
  destruct (list_find _ _); [|apply provisionMasterKey_frame].
  intros [= _ <-]. split; [done|]. exists []. by rewrite app_nil_r.
Qed.

(** The master key a request selected is in the store where the selection
    says, with the same public key and counter. *)
Lemma select_lookup req s i key s' :
  select config world req s = (Return (i, key), s') →
  ∃ key', DB.masterKeys s' !! i = Some key' ∧ same_key key' key.
Proof.
  unfold select. destruct (is_xlm config req); [|apply getMasterXpub_lookup].
  intros H. apply provisionMasterKey_lookup in H as [_ H].
  eexists. split; [exact H | done].
Qed.

(** A request that returns normally went all the way. *)
Lemma provisionKey_Return_inv req s resp s' :
  provisionKey config world req s = (Return resp, s') →
  well_formed config req = true
  ∧ checkRequester config req s = (Return (), s)
  ∧ ∃ i masterKey s1,
      select config world req s = (Return (i, masterKey), s1)
      ∧ resp = response config world req masterKey
      ∧ side_effects config world req
          (signed masterKey (issued config world req masterKey))
          (existing_user req s)
          (persisted i (issued config world req masterKey) s1) = (Return (), s').
Proof.
  intros H.
  destruct (well_formed config req) eqn:Hwf; cycle 1.
  { destruct (provisionKey_invalid req s Hwf) as [message E]. congruence. }
  split; [done|]. rewrite (provisionKey_run _ _ _ _ Hwf) in H.
  destruct (checkRequester config req s) as [[[]|e] s0] eqn:Hc; [|discriminate].
  pose proof (checkRequester_state _ _ _ _ _ Hc) as ->. split; [done|].
  destruct (select config world req s) as [[[i masterKey]|e] s1]; [|discriminate].
  exists i, masterKey, s1. split; [done|]. cbv zeta in H.
  destruct (side_effects _ _ _ _ _ _) as [[[]|e] s2]; [|discriminate].
  by injection H as <- <-.
Qed.

(** What is in the collections once a request returned normally. *)
Lemma provisionKey_Return_store req s s' i masterKey s1 :
  select config world req s = (Return (i, masterKey), s1) →
  side_effects config world req
    (signed masterKey (issued config world req masterKey))
    (existing_user req s)
    (persisted i (issued config world req masterKey) s1) = (Return (), s') →
  DB.masterKeys s' = alter MasterKey.inc_keyCount i (DB.masterKeys s1)
  ∧ DB.walletKeys s' = (DB.walletKeys s ++ [issued config world req masterKey])%list
  ∧ ∃ rest,
      DB.events s' =
        (DB.events s1 ++ Save (issued config world req masterKey) :: UpdateInc i :: rest)%list
      ∧ Forall (λ e, is_store_write e = false) rest.
Proof.
  intros Hs He.
  destruct (side_effects_appends _ _ _ _ _ _ _ _ He) as (Hm & Hw & rest & Hev & Hrest).
  destruct (select_frame _ _ _ _ Hs) as [Hw1 _].
  split; [done|]. split; [by rewrite Hw; cbn; rewrite Hw1|].
  exists rest. split; [|done]. rewrite Hev. cbn. by rewrite <- !app_assoc.
Qed.
End Requests.

(** * Validation and requester authentication *)

(** C7, where the code meets it.  A provisioning request whose
    [customerId], [coin] or [userEmail] is missing (absent, or the empty
    string), or whose coin names no property of the [supportedcoins]
    table, neither an own one nor one every object inherits, is answered
    with a 400 error response, and the store is exactly as before: no
    master key was claimed, no WalletKey written, no collaborator called.
    (A coin such as "constructor" is not in the table and still passes
    the guard of line 119: the read finds the inherited member.) *)
Theorem provisionKey_validation config world req s :
  truthy (Request.customerId req) = false
  ∨ truthy (Request.coin req) = false
  ∨ truthy (Request.userEmail req) = false
  ∨ (get (Config.supportedcoins config) (Request.coin req) = None
     ∧ ¬ inherited (Request.coin req)) →
  ∃ message,
    provisionKey config world req s = (Throw (ErrorResponse 400 message), s).
Proof.
  intros H. apply provisionKey_invalid. unfold well_formed.
  destruct H as [->|[->|[->|[-> _]]]]; cbn [truthy andb];
    rewrite ?andb_false_r; reflexivity.
Qed.

Lemma provisionKey_validation_witness :
  get (Config.supportedcoins Example.config) (Some "doge") = None
  ∧ ¬ inherited (Some "doge")
  ∧ ∃ message,
      provisionKey Example.config Example.world (Example.request "c1" "doge") Example.db
      = (Throw (ErrorResponse 400 message), Example.db).
Proof.
  assert (¬ inherited (Some "doge")) as Hown.
  { intros H. apply (bool_decide_pack _) in H. vm_compute in H. exact H. }
  split; [vm_compute; reflexivity|]. split; [exact Hown|].
  apply provisionKey_validation. right. right. right.
  split; [vm_compute; reflexivity | exact Hown].
Defined.

(** C8.  When [requesterAuth.required] is set and a well-formed request
    does not present credentials the clients table holds (no secret at
    all, or a [requesterId] under which the table has another secret or
    none), the request is answered 401 and the store is exactly as
    before: no master key claimed, no WalletKey persisted. *)
Theorem provisionKey_unauthorized config world auth req s :
  Config.requesterAuth config = Some auth →
  RequesterAuth.required auth = true →
  well_formed config req = true →
  ¬ presents_credentials auth req →
  ∃ message,
    provisionKey config world req s = (Throw (ErrorResponse 401 message), s).
Proof.
  intros Hauth Hreq Hwf Hno. rewrite (provisionKey_run _ _ _ _ Hwf).
  unfold checkRequester. rewrite Hauth, Hreq.
  destruct (negb (truthy (Request.requesterId req)) && _); [by eexists|].
  destruct (negb (truthy (get _ _)) || _) eqn:Hcheck; [by eexists|].
  exfalso. apply Hno.
  apply orb_false_iff in Hcheck as [Ht He].
  apply negb_false_iff in Ht. apply negb_false_iff, bool_decide_eq_true in He.
  destruct (get (RequesterAuth.clients auth) (Request.requesterId req)) as [secret|] eqn:Hg;
    [|discriminate].
  exists secret. by split.
Qed.

Lemma provisionKey_unauthorized_witness :
  ∃ message,
    provisionKey Example.config Example.world
      (Example.without_secret (Example.request "c1" "btc")) Example.db
    = (Throw (ErrorResponse 401 message), Example.db).
Proof.
  eapply (provisionKey_unauthorized Example.config Example.world);
    [reflexivity | reflexivity | vm_compute; reflexivity |].
  intros (secret & Hsecret & _). vm_compute in Hsecret. discriminate.
Defined.

(** * Master key allocation *)

(** C4.  When no unassigned master key of the coin's key type is left,
    [provisionMasterKey] throws the 500 response "no available <type>
    keys" and assigns nothing; a provisioning request that has to claim a
    key ends with that same error, with the store exactly as before. *)
Theorem pool_exhausted config world req s :
  let keyType := get (Config.supportedcoins config) (Request.coin req) in
  let error := ErrorResponse 500 ("no available " +:+ to_string keyType +:+ " keys") in
  exhausted keyType s →
  well_formed config req = true →
  checkRequester config req s = (Return (), s) →
  needs_fresh_key config req s →
  provisionMasterKey config world (Request.coin req) (Request.customerId req) s
  = (Throw error, s)
  ∧ provisionKey config world req s = (Throw error, s).
Proof.
  intros keyType error Hex Hwf Hc Hfresh.
  assert (provisionMasterKey config world (Request.coin req) (Request.customerId req) s
          = (Throw error, s)) as Hp.
  { rewrite provisionMasterKey_run. cbv zeta. fold keyType.
    by rewrite (proj2 (list_find_None (MasterKey.unassigned keyType) (DB.masterKeys s)) Hex). }
  split; [done|].
  rewrite (provisionKey_run _ _ _ _ Hwf), Hc. unfold select.
  destruct (is_xlm config req) eqn:Hx; [by rewrite Hp|].
  rewrite getMasterXpub_run.
  destruct Hfresh as [Hf|[->| ->]]; [congruence | by rewrite Hp | ].
  rewrite Hp. by destruct (Config.neverReuseMasterKey config).
Qed.

Lemma pool_exhausted_witness :
  provisionKey Example.config Example.world (Example.request "c2" "btc") Example.drained
  = (Throw (ErrorResponse 500 "no available xpub keys"), Example.drained).
Proof.
  refine (proj2 (pool_exhausted Example.config Example.world
                   (Example.request "c2" "btc") Example.drained _ _ _ _)).
  - unfold exhausted. apply Forall_forall. intros k Hk [Hcoin [_ Htype]].
    vm_compute in Hk.
    repeat (apply elem_of_cons in Hk as [->|Hk]; [discriminate|]).
    by apply elem_of_nil in Hk.
  - vm_compute. reflexivity.
  - vm_compute. reflexivity.
  - right. right. vm_compute. reflexivity.
Defined.




(** C6, as the code has it.  After every successful claim of an unassigned
    master key the number of keys of that type still unassigned is
    counted, and the low-supply mail carrying (count, key type) is sent to
    the admin address exactly when that count is on the
    [lowKeyWarningLevels] list and [disableAllKRSEmail] is not set;
    otherwise the claim sends nothing. *)
Theorem low_supply_alert config world coin customerId s i key :
  let keyType := get (Config.supportedcoins config) coin in
  let n := remaining keyType (claimed i keyType coin customerId s) in
  list_find (MasterKey.unassigned keyType) (DB.masterKeys s) = Some (i, key) →
  ∃ r s',
    provisionMasterKey config world coin customerId s = (r, s')
    ∧ remaining keyType s' = n
    ∧ DB.events s' =
      (DB.events s ++
       FindOneAndUpdate i coin customerId ::
       (if bool_decide (n ∈ Config.lowKeyWarningLevels config)
           && negb (Config.disableAllKRSEmail config)
        then [low_supply_mail config n keyType]
        else []))%list.
Proof.
  intros keyType n Hf. rewrite provisionMasterKey_run. cbv zeta. fold keyType.
  rewrite Hf. fold n.
  destruct (bool_decide _ && negb _).
  - eexists _, _. split; [reflexivity|]. split; [reflexivity|].
    cbn. by rewrite <- app_assoc.
  - eexists _, _. split; [reflexivity|]. split; reflexivity.
Qed.

Lemma low_supply_alert_witness :
  ∃ r s',
    provisionMasterKey Example.config Example.world (Some "btc") (Some "c2") Example.db
    = (r, s')
    ∧ remaining (Some "xpub") s' = 0
    ∧ DB.events s' =
      [FindOneAndUpdate 2 (Some "btc") (Some "c2");
       low_supply_mail Example.config 0 (Some "xpub")].
Proof.
  apply (low_supply_alert Example.config Example.world (Some "btc") (Some "c2")
           Example.db 2 (Example.pool_key "xpub" "xpub-B")).
  vm_compute. reflexivity.
Defined.

(** With all service mail switched off, claiming the last "xpub" key
    leaves 0 keys, 0 is on the warning list, and no mail is sent. *)
Lemma low_supply_counterexample :
  ¬ low_supply_as_stated Example.quiet Example.world (Some "btc") (Some "c2") Example.db.
Proof.
  intros H.
  specialize (H (2%nat, Example.pool_key "xpub" "xpub-B") _ eq_refl).
  cbv zeta in H. vm_compute in H.
  assert (0 ∈ [0; 5]) as Hin by (apply elem_of_cons; by left).
  apply H in Hin.
  apply elem_of_cons in Hin as [Hin|Hin]; [discriminate|].
  by apply elem_of_nil in Hin.
Qed.

(** * Issuing a wallet key *)

(** C1, as the code has it.  A provisioning request for a coin whose key
    type is "xlm" that returns normally claimed an unassigned master key
    of that type; the WalletKey it saved and the response carry that
    master key's own public key, and as path the [keyCount] the claimed
    key had (0 for a pool key that was never used); and the request
    raised that master key's [keyCount] by one, as for every coin. *)
Theorem single_use_provisioning config world req s resp s' :
  provisionKey config world req s = (Return resp, s') →
  is_xlm config req = true →
  ∃ i masterKey key,
    list_find (MasterKey.unassigned (Some "xlm")) (DB.masterKeys s) = Some (i, masterKey)
    ∧ Response.masterKey resp = MasterKey.pub masterKey
    ∧ Response.pub resp = Some (MasterKey.pub masterKey)
    ∧ Response.path resp = Some (MasterKey.keyCount masterKey)
    ∧ (MasterKey.keyCount masterKey = 0 → Response.path resp = Some 0)
    ∧ DB.walletKeys s' = (DB.walletKeys s ++ [key])%list
    ∧ WalletKey.pub key = Some (MasterKey.pub masterKey)
    ∧ WalletKey.path key = Some (MasterKey.keyCount masterKey)
    ∧ DB.masterKeys s' =
      alter MasterKey.inc_keyCount i
        (alter (MasterKey.assign (Request.coin req) (Request.customerId req) (Some "xlm")) i
           (DB.masterKeys s))
    ∧ MasterKey.keyCount <$> DB.masterKeys s' !! i = Some (MasterKey.keyCount masterKey + 1).
Proof.
  intros H Hx.
  apply provisionKey_Return_inv in H as (_ & _ & i & masterKey & s1 & Hs & -> & He).
  destruct (provisionKey_Return_store _ _ _ _ _ _ _ _ Hs He) as (Hm & Hw & _).
  unfold select in Hs. rewrite Hx in Hs.
  apply provisionMasterKey_Return in Hs as (Hf & Hm1 & _). cbv zeta in Hf, Hm1.
  pose proof Hx as Hxlm. apply bool_decide_eq_true in Hxlm. rewrite Hxlm in Hf, Hm1.
  exists i, masterKey, (issued config world req masterKey).
  unfold issued, response, wallet_pub. rewrite Hx. cbn.
  repeat (split; [done|]). split; [by intros ->|].
  split; [rewrite Hw; unfold issued, wallet_pub; by rewrite Hx|].
  repeat (split; [done|]). split; [by rewrite Hm, Hm1|].
  rewrite Hm, Hm1, !list_lookup_alter_eq.
  apply list_find_Some in Hf as (-> & _). reflexivity.
Qed.

Lemma single_use_provisioning_witness :
  ∃ resp s',
    provisionKey Example.config Example.world (Example.request "c1" "xlm") Example.db
    = (Return resp, s')
    ∧ Response.pub resp = Some "G-1"
    ∧ Response.path resp = Some 0
    ∧ MasterKey.keyCount <$> DB.masterKeys s' !! 1%nat = Some 1.
Proof.
  eexists _, _. split; [vm_compute; reflexivity|].
  destruct (single_use_provisioning Example.config Example.world
              (Example.request "c1" "xlm") Example.db _ _ eq_refl eq_refl)
    as (i & masterKey & key & Hf & _ & Hpub & Hpath & _ & _ & _ & _ & _ & Hcount).
  vm_compute in Hf. injection Hf as <- <-. auto.
Defined.

(** The pool key "G-1" is claimed with [keyCount] 0 and is left with 1. *)
Lemma single_use_counterexample :
  ¬ single_use_as_stated Example.config Example.world
      (Example.request "c1" "xlm") Example.db.
Proof.
  intros H. destruct (H _ _ eq_refl eq_refl) as (_ & _ & Hcount).
  vm_compute in Hcount. discriminate.
Qed.

(** C2.  A provisioning request for any other coin that returns normally
    took the master key [getMasterXpub] selected, read its [keyCount] as
    the path, derived the wallet public key from the master public key at
    that path, saved the WalletKey with that path and public key, and
    only after the save raised the master key's [keyCount], by exactly
    one and once. *)
Theorem derivable_provisioning config world req s resp s' :
  provisionKey config world req s = (Return resp, s') →
  is_xlm config req = false →
  ∃ i masterKey s1 key rest,
    getMasterXpub config world (Request.coin req) (Request.customerId req) s
    = (Return (i, masterKey), s1)
    ∧ let path := MasterKey.keyCount masterKey in
      let pub := World.deriveChildKey world (MasterKey.pub masterKey) (pretty path) "xpub" in
      Response.path resp = Some path
      ∧ Response.pub resp = Some pub
      ∧ Response.masterKey resp = MasterKey.pub masterKey
      ∧ WalletKey.path key = Some path
      ∧ WalletKey.pub key = Some pub
      ∧ WalletKey.masterKey key = Some (MasterKey.pub masterKey)
      ∧ DB.walletKeys s' = (DB.walletKeys s ++ [key])%list
      ∧ MasterKey.keyCount <$> DB.masterKeys s1 !! i = Some path
      ∧ DB.masterKeys s' = alter MasterKey.inc_keyCount i (DB.masterKeys s1)
      ∧ MasterKey.keyCount <$> DB.masterKeys s' !! i = Some (path + 1)
      ∧ DB.events s' = (DB.events s1 ++ Save key :: UpdateInc i :: rest)%list
      ∧ Forall (λ e, is_store_write e = false) rest.
Proof.
  intros H Hx.
  apply provisionKey_Return_inv in H as (_ & _ & i & masterKey & s1 & Hs & -> & He).
  destruct (provisionKey_Return_store _ _ _ _ _ _ _ _ Hs He)
    as (Hm & Hw & rest & Hev & Hrest).
  destruct (select_lookup _ _ _ _ _ _ _ Hs) as (key' & Hl & _ & Hcount & _).
  unfold select in Hs. rewrite Hx in Hs.
  exists i, masterKey, s1, (issued config world req masterKey), rest.
  split; [done|]. unfold issued, response, wallet_pub. rewrite Hx. cbn.
  repeat (split; [done|]).
  split; [rewrite Hw; unfold issued, wallet_pub; by rewrite Hx|].
  split; [by rewrite Hl; cbn; rewrite Hcount|].
  split; [done|]. split; [|split; [|done]]; cycle 1.
  { rewrite Hev. unfold issued, wallet_pub. by rewrite Hx. }
  rewrite Hm, list_lookup_alter_eq, Hl. cbn. by rewrite Hcount.
Qed.

Lemma derivable_provisioning_witness :
  ∃ resp s',
    provisionKey Example.config Example.world (Example.request "c1" "btc") Example.db
    = (Return resp, s')
    ∧ Response.path resp = Some 2
    ∧ Response.pub resp = Some "xpub-A/2"
    ∧ MasterKey.keyCount <$> DB.masterKeys s' !! 0%nat = Some 3.
Proof.
  eexists _, _. split; [vm_compute; reflexivity|].
  destruct (derivable_provisioning Example.config Example.world
              (Example.request "c1" "btc") Example.db _ _ eq_refl eq_refl)
    as (i & masterKey & s1 & key & rest & Hg & Hpath & Hpub & _ & _ & _ & _ & _ & _ & _
        & Hcount & _).
  vm_compute in Hg. injection Hg as <- <- <-. auto.
Defined.

(** C10.  Every provisioning request that returns normally stored
    [new Date()] under "created" in the [custom] object it returns and
    persists, over whatever the caller had put under that key; the other
    keys of the caller's object are passed on as they came. *)
Theorem custom_created config world req s resp s' :
  provisionKey config world req s = (Return resp, s') →
  ∃ custom key,
    Response.custom resp = Some custom
    ∧ custom !! "created" = Some (DateValue (World.now world))
    ∧ (∀ k, k ≠ "created" → custom !! k = default ∅ (Request.custom req) !! k)
    ∧ DB.walletKeys s' = (DB.walletKeys s ++ [key])%list
    ∧ WalletKey.custom key = Some custom.
Proof.
  intros H.
  apply provisionKey_Return_inv in H as (_ & _ & i & masterKey & s1 & Hs & -> & He).
  destruct (provisionKey_Return_store _ _ _ _ _ _ _ _ Hs He) as (_ & Hw & _).
  exists (stamped world req), (issued config world req masterKey).
  split; [done|]. unfold stamped.
  split; [apply lookup_insert_eq|].
  split; [intros k Hk; by apply lookup_insert_ne|]. by split.
Qed.

Lemma custom_created_witness :
  ∃ resp s' custom,
    provisionKey Example.config Example.world (Example.request "c1" "btc") Example.db
    = (Return resp, s')
    ∧ default ∅ (Request.custom (Example.request "c1" "btc")) !! "created"
      = Some (Json "1999")
    ∧ Response.custom resp = Some custom
    ∧ custom !! "created" = Some (DateValue (World.now Example.world))
    ∧ custom !! "label" = Some (Json "savings").
Proof.
  destruct (custom_created Example.config Example.world
              (Example.request "c1" "btc") Example.db _ _ eq_refl)
    as (custom & key & Hc & Hcreated & Hother & _).
  eexists _, _, custom. split; [vm_compute; reflexivity|].
  split; [vm_compute; reflexivity|]. split; [exact Hc|]. split; [exact Hcreated|].
  rewrite Hother; [vm_compute; reflexivity | discriminate].
Defined.

(** * Side effects *)

Section Webhook.
Variable config : Config.t.
Variable world : World.t.

Lemma signed_xpub masterKey key :
  WalletKey.xpub (signed masterKey key) = WalletKey.xpub key.
Proof. unfold signed. by destruct (truthy _). Qed.

Lemma signed_notificationURL masterKey key :
  WalletKey.notificationURL (signed masterKey key) = WalletKey.notificationURL key.
Proof. unfold signed. by destruct (truthy _). Qed.

(** On a document without [xpub] the webhook is never posted. *)
Lemma side_effects_no_post req key existingUser :
  WalletKey.xpub key = None →
  appends (λ e, is_post e = false) (side_effects config world req key existingUser).
Proof.
  intros Hx. unfold side_effects.
  apply appends_bind; [|intros _; apply appends_bind; [|intros _]].
  - eapply appends_weaken; [|apply notifyOwner_appends]. by intros e [? _].
  - eapply appends_weaken; [|apply syncMailchimp_appends]. by intros e [? _].
  - destruct (truthy _); [|apply appends_mret].
    intros s r s'. rewrite notifyEndpoint_run, Hx. intros [= _ <-].
    repeat split. exists []. by rewrite app_nil_r.
Qed.

(** ... and with a [notificationURL] on it the side effects end in a throw. *)
Lemma side_effects_webhook_throws req key existingUser s s' :
  WalletKey.xpub key = None →
  truthy (WalletKey.notificationURL key) = true →
  side_effects config world req key existingUser s ≠ (Return (), s').
Proof.
  intros Hx Hurl H. unfold side_effects in H.
  apply bind_Return_inv in H as (_ & s1 & _ & H).
  apply bind_Return_inv in H as (_ & s2 & _ & H).
  rewrite Hurl, notifyEndpoint_run, Hx in H. discriminate.
Qed.

(** A Mailchimp call that throws turns into the 503 response. *)
Lemma syncMailchimp_throws userEmail (existingUser : bool) s :
  Config.sendMailChimpNotKRSEMail config = true →
  World.createMember world userEmail = None
  ∨ World.addTagToMember world userEmail
      (if existingUser then Config.mailchimp_moreWalletsTags config
       else Config.mailchimp_firstWalletTags config) = None →
  ∃ s', syncMailchimp config world userEmail existingUser s
        = (Throw (ErrorResponse 503 "Problem calling mailchimp"), s').
Proof.
  intros Hon Hfail. unfold syncMailchimp. rewrite Hon.
  cbv beta iota delta [try_catch mbind Co_bind mret Co_ret createMember addTagToMember
                       emit write console_log throw].
  destruct (World.createMember world userEmail) as [res1|].
  - destruct Hfail as [?|Hfail]; [discriminate|].
    destruct (negb (McRes.status res1 =? 200)%Z), existingUser;
      rewrite Hfail; by eexists.
  - by eexists.
Qed.

(** A Mailchimp answer, whatever its status, lets the request go on. *)
Lemma syncMailchimp_answers userEmail (existingUser : bool) s res1 res2 :
  Config.sendMailChimpNotKRSEMail config = true →
  World.createMember world userEmail = Some res1 →
  World.addTagToMember world userEmail
    (if existingUser then Config.mailchimp_moreWalletsTags config
     else Config.mailchimp_firstWalletTags config) = Some res2 →
  ∃ s', syncMailchimp config world userEmail existingUser s = (Return (), s').
Proof.
  intros Hon H1 H2. unfold syncMailchimp. rewrite Hon.
  cbv beta iota delta [try_catch mbind Co_bind mret Co_ret createMember addTagToMember
                       emit write console_log throw].
  rewrite H1.
  destruct (negb (McRes.status res1 =? 200)%Z), existingUser; rewrite H2;
    destruct (negb (McRes.status res2 =? 200)%Z); by eexists.
Qed.
End Webhook.

(** C9, what the code does.  A provisioning request that supplies a
    [notificationURL] never posts the webhook and never returns normally:
    [provisionKey] stores the issued public key under [pub], while
    [notifyEndpoint] reads [xpub], which nothing sets, and the HMAC over
    it throws before the POST. *)
Theorem webhook_not_sent config world req s r s' :
  provisionKey config world req s = (r, s') →
  truthy (Request.notificationURL req) = true →
  (∃ e, r = Throw e)
  ∧ ∃ evs, DB.events s' = (DB.events s ++ evs)%list ∧ Forall (λ e, is_post e = false) evs.
Proof.
  intros H Hurl.
  destruct (well_formed config req) eqn:Hwf; cycle 1.
  { destruct (provisionKey_invalid config world req s Hwf) as [message E].
    rewrite E in H. injection H as <- <-. split; [by eexists|].
    exists []. by rewrite app_nil_r. }
  rewrite (provisionKey_run _ _ _ _ Hwf) in H.
  destruct (checkRequester config req s) as [[[]|e] s0] eqn:Hc;
    pose proof (checkRequester_state _ _ _ _ _ Hc) as ->; cycle 1.
  { injection H as <- <-. split; [by eexists|]. exists []. by rewrite app_nil_r. }
  destruct (select config world req s) as [[[i masterKey]|e] s1] eqn:Hs;
    destruct (select_frame _ _ _ _ _ _ Hs) as (_ & evs1 & E1 & F1); cycle 1.
  { injection H as <- <-. split; [by eexists|]. by exists evs1. }
  cbv zeta in H.
  destruct (side_effects _ _ _ _ _ _) as [[[]|e] s2] eqn:He.
  { exfalso. eapply side_effects_webhook_throws; [| |exact He].
    - by rewrite signed_xpub.
    - by rewrite signed_notificationURL. }
  injection H as <- <-. split; [by eexists|].
  eapply side_effects_no_post in He as (_ & _ & evs2 & E2 & F2);
    [|by rewrite signed_xpub].
  exists (evs1 ++ Save (issued config world req masterKey) :: UpdateInc i :: evs2)%list.
  split.
  - rewrite E2. cbn. rewrite E1. by rewrite <- !app_assoc.
  - apply Forall_app. split; [done|]. by repeat constructor.
Qed.

Lemma webhook_not_sent_witness :
  let run :=
    provisionKey Example.config Example.world
      (Example.with_webhook (Example.request "c1" "btc")) Example.db in
  (∃ e, run.1 = Throw e)
  ∧ ∃ evs, DB.events run.2 = (DB.events Example.db ++ evs)%list
           ∧ Forall (λ e, is_post e = false) evs.
Proof.
  intros run.
  apply (webhook_not_sent Example.config Example.world
           (Example.with_webhook (Example.request "c1" "btc")) Example.db);
    [apply surjective_pairing | vm_compute; reflexivity].
Defined.

(** The run itself: the key is saved, the counter raised, the owner mail
    sent, and then the HMAC throws; nothing is posted. *)
Lemma webhook_failing_input :
  ∃ s',
    provisionKey Example.config Example.world
      (Example.with_webhook (Example.request "c1" "btc")) Example.db
    = (Throw (TypeError "The data argument must be of type string or an instance of Buffer, TypedArray, or DataView. Received undefined"), s')
    ∧ length (DB.walletKeys s') = 1%nat
    ∧ MasterKey.keyCount <$> DB.masterKeys s' !! 0%nat = Some 3
    ∧ Forall (λ e, is_post e = false) (DB.events s').
Proof.
  eexists. split; [vm_compute; reflexivity|].
  split; [reflexivity|]. split; [reflexivity|]. by repeat constructor.
Qed.

Section MailchimpLogs.
Variable config : Config.t.
Variable world : World.t.

(** A Mailchimp call that throws: the last thing the step does before
    it throws the 503 response is to log the failure. *)
Lemma syncMailchimp_throws_logged userEmail (existingUser : bool) s :
  Config.sendMailChimpNotKRSEMail config = true →
  World.createMember world userEmail = None
  ∨ World.addTagToMember world userEmail
      (if existingUser then Config.mailchimp_moreWalletsTags config
       else Config.mailchimp_firstWalletTags config) = None →
  ∃ s' before text,
    syncMailchimp config world userEmail existingUser s
    = (Throw (ErrorResponse 503 "Problem calling mailchimp"), s')
    ∧ DB.masterKeys s' = DB.masterKeys s
    ∧ DB.walletKeys s' = DB.walletKeys s
    ∧ DB.events s' =
      (DB.events s ++ before ++
       [ConsoleLog ("Failed to create Mailchimp lists and tags. " +:+ text)])%list.
Proof.
  intros Hon Hfail. unfold syncMailchimp. rewrite Hon.
  cbv beta iota delta [try_catch mbind Co_bind mret Co_ret createMember addTagToMember
                       emit write console_log throw].
  destruct (World.createMember world userEmail) as [res1|].
  - destruct Hfail as [?|Hfail]; [discriminate|].
    destruct (negb (McRes.status res1 =? 200)%Z), existingUser; rewrite Hfail.
    + eexists _, [_; _; _], _. split; [reflexivity|]. split; [done|]. split; [done|].
      cbn. by rewrite <- !app_assoc.
    + eexists _, [_; _; _], _. split; [reflexivity|]. split; [done|]. split; [done|].
      cbn. by rewrite <- !app_assoc.
    + eexists _, [_; _], _. split; [reflexivity|]. split; [done|]. split; [done|].
      cbn. by rewrite <- !app_assoc.
    + eexists _, [_; _], _. split; [reflexivity|]. split; [done|]. split; [done|].
      cbn. by rewrite <- !app_assoc.
  - eexists _, [_], _. split; [reflexivity|]. split; [done|]. split; [done|].
    cbn. by rewrite <- !app_assoc.
Qed.

(** A Mailchimp answer, whatever its status: the calls and the log lines
    of the step, and nothing else. *)
Lemma syncMailchimp_answers_logged userEmail (existingUser : bool) s res1 res2 :
  let tags := if existingUser then Config.mailchimp_moreWalletsTags config
              else Config.mailchimp_firstWalletTags config in
  Config.sendMailChimpNotKRSEMail config = true →
  World.createMember world userEmail = Some res1 →
  World.addTagToMember world userEmail tags = Some res2 →
  ∃ s',
    syncMailchimp config world userEmail existingUser s = (Return (), s')
    ∧ DB.masterKeys s' = DB.masterKeys s
    ∧ DB.walletKeys s' = DB.walletKeys s
    ∧ DB.events s' =
      (DB.events s ++
       CreateMember userEmail ::
       (if negb (McRes.status res1 =? 200)%Z
        then [ConsoleLog ("Mailchimp User Not Created. " +:+ McRes.Msg res1)]
        else []) ++
       AddTagToMember userEmail tags ::
       ConsoleLog ("Adding[" +:+ tags +:+ "] to existing user.") ::
       (if negb (McRes.status res2 =? 200)%Z
        then [ConsoleLog ("Mailchimp API Error[" +:+ McRes.Msg res2
                            +:+ "] - Tags not added[" +:+ McRes.Msg res2 +:+ "]")]
        else []))%list.
Proof.
  intros tags Hon H1 H2. unfold syncMailchimp. rewrite Hon.
  cbv beta iota delta [try_catch mbind Co_bind mret Co_ret createMember addTagToMember
                       emit write console_log throw].
  rewrite H1. unfold tags in *.
  destruct (negb (McRes.status res1 =? 200)%Z), existingUser; rewrite H2;
    destruct (negb (McRes.status res2 =? 200)%Z);
    (eexists; split; [reflexivity|]; split; [done|]; split; [done|];
     cbn; by rewrite <- !app_assoc).
Qed.
End MailchimpLogs.

(** C5, as the code has it.  A webhook POST that fails is caught inside
    [notifyEndpoint], logged, and not passed on: on a document that has
    its [xpub], [notifyEndpoint] always returns and leaves the collections
    alone.  A Mailchimp call that throws is caught and logged too, but
    then thrown on as the 503 response "Problem calling mailchimp": the
    request fails although its WalletKey stays persisted, and the log
    line "Failed to create Mailchimp lists and tags. ..." is the last
    thing it did.  A Mailchimp answer with a status other than 200 is
    only logged ("Mailchimp User Not Created. ...", "Mailchimp API
    Error[...] ...") and the step returns. *)
Theorem side_effect_failures config world :
  (∀ key state s data,
     WalletKey.xpub key = Some data →
     let payload :=
       {| Payload.userEmail := WalletKey.userEmail key;
          Payload.provider := Config.provider_id config;
          Payload.state := state;
          Payload.xpub := Some data;
          Payload.hmac :=
            World.hmac_sha256_hex world (Config.provider_secret config) data |} in
     ∃ s',
       notifyEndpoint config world key state s = (Return (), s')
       ∧ DB.masterKeys s' = DB.masterKeys s
       ∧ DB.walletKeys s' = DB.walletKeys s
       ∧ DB.events s' =
         (DB.events s ++
          Post (WalletKey.notificationURL key) payload ::
          (if World.post world (WalletKey.notificationURL key) payload then []
           else [ConsoleLog "error connecting to webhook"]))%list)
  ∧ (∀ req s r s',
       Config.sendMailChimpNotKRSEMail config = true →
       World.createMember world (Request.userEmail req) = None
       ∨ World.addTagToMember world (Request.userEmail req)
           (if existing_user req s then Config.mailchimp_moreWalletsTags config
            else Config.mailchimp_firstWalletTags config) = None →
       provisionKey config world req s = (r, s') →
       DB.walletKeys s' ≠ DB.walletKeys s →
       r = Throw (ErrorResponse 503 "Problem calling mailchimp")
       ∧ (∃ key, DB.walletKeys s' = (DB.walletKeys s ++ [key])%list)
       ∧ ∃ evs text,
           DB.events s' =
             (DB.events s ++ evs ++
              [ConsoleLog ("Failed to create Mailchimp lists and tags. " +:+ text)])%list)
  ∧ (∀ userEmail (existingUser : bool) s res1 res2,
       let tags := if existingUser then Config.mailchimp_moreWalletsTags config
                   else Config.mailchimp_firstWalletTags config in
       Config.sendMailChimpNotKRSEMail config = true →
       World.createMember world userEmail = Some res1 →
       World.addTagToMember world userEmail tags = Some res2 →
       ∃ s',
         syncMailchimp config world userEmail existingUser s = (Return (), s')
         ∧ DB.masterKeys s' = DB.masterKeys s
         ∧ DB.walletKeys s' = DB.walletKeys s
         ∧ DB.events s' =
           (DB.events s ++
            CreateMember userEmail ::
            (if negb (McRes.status res1 =? 200)%Z
             then [ConsoleLog ("Mailchimp User Not Created. " +:+ McRes.Msg res1)]
             else []) ++
            AddTagToMember userEmail tags ::
            ConsoleLog ("Adding[" +:+ tags +:+ "] to existing user.") ::
            (if negb (McRes.status res2 =? 200)%Z
             then [ConsoleLog ("Mailchimp API Error[" +:+ McRes.Msg res2
                                 +:+ "] - Tags not added[" +:+ McRes.Msg res2 +:+ "]")]
             else []))%list).
Proof.
  split; [|split].
  - intros key state s data Hx payload. rewrite notifyEndpoint_run, Hx. cbv zeta.
    fold payload. eexists. split; [reflexivity|].
    destruct (World.post _ _ _); cbn; repeat split; by rewrite <- ?app_assoc.
  - intros req s r s' Hon Hfail H Hgrew.
    destruct (well_formed config req) eqn:Hwf; cycle 1.
    { destruct (provisionKey_invalid config world req s Hwf) as [message E].
      rewrite E in H. by injection H as <- <-. }
    rewrite (provisionKey_run _ _ _ _ Hwf) in H.
    destruct (checkRequester config req s) as [[[]|e] s0] eqn:Hc;
      pose proof (checkRequester_state _ _ _ _ _ Hc) as ->; cycle 1.
    { by injection H as <- <-. }
    destruct (select config world req s) as [[[i masterKey]|e] s1] eqn:Hs;
      destruct (select_frame _ _ _ _ _ _ Hs) as (Hw1 & evs1 & E1 & _); cycle 1.
    { injection H as <- <-. by rewrite Hw1 in Hgrew. }
    cbv zeta in H.
    destruct (side_effects _ _ _ _ _ _) as [r0 s2] eqn:He.
    assert (s2 = s') as -> by (destruct r0 as [[]|?]; by injection H as _ <-).
    pose proof (side_effects_appends _ _ _ _ _ _ _ _ He) as (_ & Hw & _).
    unfold side_effects in He. rewrite bind_run in He.
    destruct (notifyOwner _ _ _ _ _ _) as [[[]|e] s3] eqn:Ho; cycle 1.
    { unfold notifyOwner in Ho. rewrite Hon, !andb_false_r in Ho. discriminate. }
    assert (s3 = persisted i (issued config world req masterKey) s1) as ->.
    { unfold notifyOwner in Ho. rewrite Hon, !andb_false_r in Ho. by injection Ho as <-. }
    rewrite bind_run in He.
    destruct (syncMailchimp_throws_logged config world _ _
                (persisted i (issued config world req masterKey) s1) Hon Hfail)
      as (s5 & before & text & E & _ & _ & Ev).
    rewrite E in He. injection He as <- <-. injection H as <-.
    split; [done|]. split; [eexists; rewrite Hw; cbn; by rewrite Hw1|].
    exists (evs1 ++ Save (issued config world req masterKey) :: UpdateInc i :: before)%list,
      text.
    rewrite Ev. cbn. rewrite E1. by rewrite <- !app_assoc.
  - intros userEmail existingUser s res1 res2. apply syncMailchimp_answers_logged.
Qed.

Lemma side_effect_failures_witness :
  (∃ s',
     notifyEndpoint Example.config Example.world Example.hooked_key "created" Example.db
     = (Return (), s')
     ∧ DB.events s' =
       [Post (Some "https://hooks.example/krs")
          {| Payload.userEmail := Some "owner@example.com";
             Payload.provider := "krs";
             Payload.state := "created";
             Payload.xpub := Some "xpub-A/2";
             Payload.hmac := "hmac:provider-secret:xpub-A/2" |};
        ConsoleLog "error connecting to webhook"])
  ∧ ∃ evs text,
      DB.events
        (Scenario.after Example.with_mailchimp Example.world (Example.request "c1" "btc")
           Example.db)
      = (DB.events Example.db ++ evs ++
         [ConsoleLog ("Failed to create Mailchimp lists and tags. " +:+ text)])%list.
Proof.
  destruct (side_effect_failures Example.with_mailchimp Example.world)
    as (_ & Hmailchimp & _).
  destruct (proj1 (side_effect_failures Example.config Example.world)
              Example.hooked_key "created" Example.db "xpub-A/2" eq_refl)
    as (s' & Hrun & _ & _ & Hev).
  split.
  - exists s'. split; [exact Hrun|]. rewrite Hev. vm_compute. reflexivity.
  - refine (proj2 (proj2 (Hmailchimp (Example.request "c1" "btc") Example.db _ _
                            eq_refl _ (surjective_pairing _) _))).
    + by left.
    + vm_compute. discriminate.
Defined.

(** Mailchimp is unreachable: the request has saved its WalletKey and
    fails with the 503 response. *)
Lemma best_effort_counterexample :
  ¬ best_effort_as_stated Example.with_mailchimp Example.world
      (Example.request "c1" "btc") Example.db.
Proof.
  intros H. destruct (H _ _ eq_refl) as [resp Hresp]; [done | | discriminate].
  vm_compute. discriminate.
Qed.

(** * The requester guard and the lookups *)

Section LookupFacts.
Variable config : Config.t.

Lemma checkRequester_requireRequester req :
  checkRequester config req
  = requireRequester config (Request.requesterId req) (Request.requesterSecret req).
Proof. reflexivity. Qed.

Lemma truthy_Some_nonempty v : truthy v = true ↔ ∃ text, v = Some text ∧ text ≠ "".
Proof.
  destruct v as [text|]; cbn; [|split; [discriminate | by intros (? & ? & _)]].
  rewrite negb_true_iff. split.
  - intros H. exists text. split; [done|]. intros ->. discriminate.
  - intros (? & [= <-] & Hne). by apply String.eqb_neq.
Qed.

(** The guard lets a request through exactly when it is [authorised], and
    answers 401 on the same store otherwise. *)
Lemma requireRequester_spec requesterId requesterSecret s :
  (authorised config requesterId requesterSecret
   ∧ requireRequester config requesterId requesterSecret s = (Return (), s))
  ∨ (¬ authorised config requesterId requesterSecret
     ∧ ∃ message,
         requireRequester config requesterId requesterSecret s
         = (Throw (ErrorResponse 401 message), s)).
Proof.
  unfold requireRequester, authorised.
  destruct (Config.requesterAuth config) as [auth|]; [|left; by split].
  destruct (RequesterAuth.required auth) eqn:Hreq; cycle 1.
  { left. split; [|done]. intros ? [= <-]. congruence. }
  assert (∀ P : Prop, ¬ holds_secret auth requesterId requesterSecret →
            ¬ (∀ auth0, Some auth = Some auth0 → RequesterAuth.required auth0 = true →
                 holds_secret auth0 requesterId requesterSecret)) as Hno.
  { intros _ Hn H. apply Hn. by apply H. }
  destruct (negb (truthy requesterId) && negb (truthy requesterSecret)) eqn:Hboth.
  { right. split; [|by eexists]. apply (Hno True). intros (secret & Hne & -> & _).
    apply andb_true_iff in Hboth as [_ Hs]. apply negb_true_iff in Hs.
    cbn in Hs. apply negb_false_iff, String.eqb_eq in Hs. done. }
  destruct (negb (truthy (get _ _)) || _) eqn:Hcheck.
  - right. split; [|by eexists]. apply (Hno True). intros (secret & Hne & -> & Hg).
    rewrite Hg in Hcheck. cbn in Hcheck.
    rewrite bool_decide_eq_true_2, orb_false_r in Hcheck by done.
    apply negb_true_iff, negb_false_iff, String.eqb_eq in Hcheck. done.
  - left. split; [|done]. intros ? [= <-] _.
    apply orb_false_iff in Hcheck as [Ht He].
    apply negb_false_iff, truthy_Some_nonempty in Ht as (secret & Hg & Hne).
    apply negb_false_iff, bool_decide_eq_true in He.
    exists secret. split; [done|]. split; congruence.
Qed.

Lemma requireRequester_pass requesterId requesterSecret s :
  authorised config requesterId requesterSecret →
  requireRequester config requesterId requesterSecret s = (Return (), s).
Proof.
  intros Ha. by destruct (requireRequester_spec requesterId requesterSecret s) as [[_ ?]|[? _]].
Qed.

Lemma requireRequester_fail requesterId requesterSecret s :
  ¬ authorised config requesterId requesterSecret →
  ∃ message,
    requireRequester config requesterId requesterSecret s
    = (Throw (ErrorResponse 401 message), s).
Proof.
  intros Ha. by destruct (requireRequester_spec requesterId requesterSecret s) as [[? _]|[_ ?]].
Qed.

(** The whole of [isUserKey] once [pub] is there. *)
Lemma isUserKey_run req s :
  truthy (PubQuery.pub req) = true →
  isUserKey config req s =
  match requireRequester config (PubQuery.requesterId req) (PubQuery.requesterSecret req) s
  with
  | (Throw e, s0) => (Throw e, s0)
  | (Return _, s0) =>
      (Return
         match list_find (λ k, WalletKey.pub k = PubQuery.pub req) (DB.walletKeys s0) with
         | None => {| PubAnswer.pub := PubQuery.pub req; PubAnswer.isWalletKey := false |}
         | Some (_, key) =>
             {| PubAnswer.pub := WalletKey.pub key; PubAnswer.isWalletKey := true |}
         end, s0)
  end.
Proof.
  intros Hpub. unfold isUserKey. rewrite Hpub. cbn [negb]. rewrite bind_run.
  destruct (requireRequester _ _ _ _) as [[[]|e] s0]; [|done].
  rewrite bind_run. unfold findOne_pub, read.
  by destruct (list_find _ _) as [[j key]|].
Qed.

Lemma isUser_run req s :
  truthy (EmailQuery.email req) = true →
  isUser config req s =
  match requireRequester config (EmailQuery.requesterId req) (EmailQuery.requesterSecret req) s
  with
  | (Throw e, s0) => (Throw e, s0)
  | (Return _, s0) =>
      (Return
         {| EmailAnswer.email := EmailQuery.email req;
            EmailAnswer.isUser :=
              bool_decide (is_Some (list_find
                                      (λ k, WalletKey.userEmail k = EmailQuery.email req)
                                      (DB.walletKeys s0))) |}, s0)
  end.
Proof.
  intros Hemail. unfold isUser. rewrite Hemail. cbn [negb]. rewrite bind_run.
  destruct (requireRequester _ _ _ _) as [[[]|e] s0]; [|done].
  rewrite bind_run. unfold Store.findOne_userEmail, read.
  by destruct (list_find _ _) as [[j key]|].
Qed.

(** [findOne] finds a document exactly when one matches. *)
Lemma list_find_is_Some {A} (P : A → Prop) `{∀ x, Decision (P x)} (l : list A) :
  is_Some (list_find P l) ↔ ∃ x, x ∈ l ∧ P x.
Proof.
  split.
  - intros [[j x] Hf]. apply list_find_Some in Hf as (Hl & HP & _).
    exists x. split; [|done]. eapply list_elem_of_lookup_2. exact Hl.
  - intros (x & Hin & HP). destruct (list_find P l) as [jx|] eqn:Hf; [by eexists|].
    apply list_find_None in Hf. rewrite Forall_forall in Hf. by destruct (Hf x Hin).
Qed.

Lemma isUserKey_found req s key :
  truthy (PubQuery.pub req) = true →
  authorised config (PubQuery.requesterId req) (PubQuery.requesterSecret req) →
  key ∈ DB.walletKeys s →
  WalletKey.pub key = PubQuery.pub req →
  isUserKey config req s
  = (Return {| PubAnswer.pub := PubQuery.pub req; PubAnswer.isWalletKey := true |}, s).
Proof.
  intros Hpub Ha Hin Hk. rewrite (isUserKey_run _ _ Hpub), (requireRequester_pass _ _ _ Ha).
  destruct (list_find _ _) as [[j key']|] eqn:Hf.
  - apply list_find_Some in Hf as (_ & -> & _). done.
  - apply list_find_None in Hf. rewrite Forall_forall in Hf. by destruct (Hf key Hin).
Qed.

Lemma isUser_found req s key :
  truthy (EmailQuery.email req) = true →
  authorised config (EmailQuery.requesterId req) (EmailQuery.requesterSecret req) →
  key ∈ DB.walletKeys s →
  WalletKey.userEmail key = EmailQuery.email req →
  isUser config req s
  = (Return {| EmailAnswer.email := EmailQuery.email req; EmailAnswer.isUser := true |}, s).
Proof.
  intros Hemail Ha Hin Hk. rewrite (isUser_run _ _ Hemail), (requireRequester_pass _ _ _ Ha).
  rewrite bool_decide_eq_true_2; [done|]. apply list_find_is_Some. eauto.
Qed.
End LookupFacts.

(** X1.  The requester guard of [provisionKey] lets a request through
    exactly when no requester authentication is required or the clients
    table, read at the presented [requesterId], holds a non-empty secret
    equal to the presented one; every other request gets a 401 error
    response.  The guard never changes the store. *)
Theorem requester_guard_accepts config req s :
  (checkRequester config req s = (Return (), s)
   ↔ authorised config (Request.requesterId req) (Request.requesterSecret req))
  ∧ (checkRequester config req s = (Return (), s)
     ∨ ∃ message, checkRequester config req s = (Throw (ErrorResponse 401 message), s)).
Proof.
  rewrite checkRequester_requireRequester.
  destruct (requireRequester_spec config (Request.requesterId req)
              (Request.requesterSecret req) s) as [[Ha E]|[Ha [message E]]];
    rewrite E; split; eauto.
  - by split.
  - split; [discriminate | done].
Qed.

Lemma requester_guard_accepts_witness :
  checkRequester Example.config (Example.request "c1" "btc") Example.db
  = (Return (), Example.db).
Proof.
  apply (proj1 (requester_guard_accepts Example.config (Example.request "c1" "btc")
                  Example.db)).
  intros auth [= <-] _. exists "s3cret". split; [discriminate|].
  split; vm_compute; reflexivity.
Defined.

(** X2.  For a request that carries a [pub] and passes the requester
    guard, [isUserKey] answers with that [pub], and [isWalletKey] is true
    exactly when the WalletKey collection holds a document with that
    public key; the store is left as it is. *)
Theorem isUserKey_answer config req s :
  truthy (PubQuery.pub req) = true →
  authorised config (PubQuery.requesterId req) (PubQuery.requesterSecret req) →
  ∃ answer,
    isUserKey config req s = (Return answer, s)
    ∧ PubAnswer.pub answer = PubQuery.pub req
    ∧ (PubAnswer.isWalletKey answer = true
       ↔ ∃ key, key ∈ DB.walletKeys s ∧ WalletKey.pub key = PubQuery.pub req).
Proof.
  intros Hpub Ha. rewrite (isUserKey_run _ _ _ Hpub), (requireRequester_pass _ _ _ _ Ha).
  eexists. split; [reflexivity|].
  destruct (list_find _ _) as [[j key]|] eqn:Hf.
  - apply list_find_Some in Hf as (Hl & Hk & _). split; [done|].
    split; [|done]. intros _. exists key. split; [|done].
    eapply list_elem_of_lookup_2. exact Hl.
  - split; [done|]. split; [discriminate|]. intros (key & Hin & Hk).
    apply list_find_None in Hf. rewrite Forall_forall in Hf. by destruct (Hf key Hin).
Qed.

Lemma isUserKey_answer_witness :
  ∃ answer,
    isUserKey Example.config (Scenario.credentials_pub "xpub-A/2") Example.db
    = (Return answer, Example.db)
    ∧ PubAnswer.pub answer = Some "xpub-A/2"
    ∧ (PubAnswer.isWalletKey answer = true
       ↔ ∃ key, key ∈ DB.walletKeys Example.db ∧ WalletKey.pub key = Some "xpub-A/2").
Proof.
  apply (isUserKey_answer Example.config (Scenario.credentials_pub "xpub-A/2") Example.db);
    [vm_compute; reflexivity|].
  intros auth [= <-] _. exists "s3cret". split; [discriminate|].
  split; vm_compute; reflexivity.
Defined.

(** X3.  For a request that carries an [email] and passes the requester
    guard, [isUser] answers with that [email], and [isUser] is true
    exactly when the WalletKey collection holds a document with that
    [userEmail]; the store is left as it is. *)
Theorem isUser_answer config req s :
  truthy (EmailQuery.email req) = true →
  authorised config (EmailQuery.requesterId req) (EmailQuery.requesterSecret req) →
  ∃ answer,
    isUser config req s = (Return answer, s)
    ∧ EmailAnswer.email answer = EmailQuery.email req
    ∧ (EmailAnswer.isUser answer = true
       ↔ ∃ key, key ∈ DB.walletKeys s ∧ WalletKey.userEmail key = EmailQuery.email req).
Proof.
  intros Hemail Ha. rewrite (isUser_run _ _ _ Hemail), (requireRequester_pass _ _ _ _ Ha).
  eexists. split; [reflexivity|]. split; [done|]. cbn.
  rewrite bool_decide_eq_true. apply list_find_is_Some.
Qed.

Lemma isUser_answer_witness :
  ∃ answer,
    isUser Example.config (Scenario.credentials_email "owner@example.com") Example.db
    = (Return answer, Example.db)
    ∧ EmailAnswer.email answer = Some "owner@example.com"
    ∧ (EmailAnswer.isUser answer = true
       ↔ ∃ key, key ∈ DB.walletKeys Example.db
                ∧ WalletKey.userEmail key = Some "owner@example.com").
Proof.
  apply (isUser_answer Example.config (Scenario.credentials_email "owner@example.com")
           Example.db); [vm_compute; reflexivity|].
  intros auth [= <-] _. exists "s3cret". split; [discriminate|].
  split; vm_compute; reflexivity.
Defined.

(** X4.  [isUserKey] and [isUser] check their own field first: without a
    [pub] (an [email]) the answer is the 400 error "pub is required"
    ("email is required") whatever the credentials; with it, a request
    that is not authorised gets a 401 error.  On every path, also these,
    the store is exactly as before. *)
Theorem lookup_rejections config :
  (∀ req s,
     truthy (PubQuery.pub req) = false →
     isUserKey config req s = (Throw (ErrorResponse 400 "pub is required"), s))
  ∧ (∀ req s,
       truthy (EmailQuery.email req) = false →
       isUser config req s = (Throw (ErrorResponse 400 "email is required"), s))
  ∧ (∀ req s,
       truthy (PubQuery.pub req) = true →
       ¬ authorised config (PubQuery.requesterId req) (PubQuery.requesterSecret req) →
       ∃ message, isUserKey config req s = (Throw (ErrorResponse 401 message), s))
  ∧ (∀ req s,
       truthy (EmailQuery.email req) = true →
       ¬ authorised config (EmailQuery.requesterId req) (EmailQuery.requesterSecret req) →
       ∃ message, isUser config req s = (Throw (ErrorResponse 401 message), s))
  ∧ (∀ req s r s', isUserKey config req s = (r, s') → s' = s)
  ∧ (∀ req s r s', isUser config req s = (r, s') → s' = s).
Proof.
  repeat split.
  - intros req s H. unfold isUserKey. by rewrite H.
  - intros req s H. unfold isUser. by rewrite H.
  - intros req s Hpub Ha. rewrite (isUserKey_run _ _ _ Hpub).
    destruct (requireRequester_fail _ _ _ s Ha) as [message ->]. by eexists.
  - intros req s Hemail Ha. rewrite (isUser_run _ _ _ Hemail).
    destruct (requireRequester_fail _ _ _ s Ha) as [message ->]. by eexists.
  - intros req s r s'. destruct (truthy (PubQuery.pub req)) eqn:Hpub.
    + rewrite (isUserKey_run _ _ _ Hpub).
      destruct (requireRequester_spec config (PubQuery.requesterId req)
                  (PubQuery.requesterSecret req) s) as [[_ ->]|[_ [message ->]]];
        by intros [= _ <-].
    + unfold isUserKey. rewrite Hpub. by intros [= _ <-].
  - intros req s r s'. destruct (truthy (EmailQuery.email req)) eqn:Hemail.
    + rewrite (isUser_run _ _ _ Hemail).
      destruct (requireRequester_spec config (EmailQuery.requesterId req)
                  (EmailQuery.requesterSecret req) s) as [[_ ->]|[_ [message ->]]];
        by intros [= _ <-].
    + unfold isUser. rewrite Hemail. by intros [= _ <-].
Qed.

Lemma lookup_rejections_witness :
  isUserKey Example.config (Scenario.anonymous_pub None) Example.db
  = (Throw (ErrorResponse 400 "pub is required"), Example.db)
  ∧ ∃ message,
      isUser Example.config (Scenario.anonymous_email (Some "owner@example.com")) Example.db
      = (Throw (ErrorResponse 401 message), Example.db).
Proof.
  destruct (lookup_rejections Example.config) as (Hpub & _ & _ & Hemail & _).
  split; [by apply Hpub|]. apply Hemail; [vm_compute; reflexivity|].
  intros Ha. destruct (Ha _ eq_refl eq_refl) as (secret & _ & Hs & _). discriminate.
Defined.

(** * Provisioning, path by path *)

Section Paths.
Variable config : Config.t.
Variable world : World.t.

(** The three ways a selection can go. *)
Lemma select_cases req s r s1 :
  select config world req s = (r, s1) →
  let coin := Request.coin req in
  let customerId := Request.customerId req in
  let keyType := get (Config.supportedcoins config) coin in
  (∃ i k,
     r = Return (i, k) ∧ s1 = s
     ∧ is_xlm config req = false ∧ Config.neverReuseMasterKey config = false
     ∧ list_find (MasterKey.assigned_to coin customerId) (DB.masterKeys s) = Some (i, k))
  ∨ (∃ i k,
       needs_fresh_key config req s
       ∧ list_find (MasterKey.unassigned keyType) (DB.masterKeys s) = Some (i, k)
       ∧ (r = Return (i, k) ∨ r = Throw (Rejected "sendMailQ"))
       ∧ DB.masterKeys s1 = alter (MasterKey.assign coin customerId keyType) i (DB.masterKeys s)
       ∧ DB.walletKeys s1 = DB.walletKeys s)
  ∨ (needs_fresh_key config req s
     ∧ list_find (MasterKey.unassigned keyType) (DB.masterKeys s) = None
     ∧ s1 = s
     ∧ r = Throw (ErrorResponse 500 ("no available " +:+ to_string keyType +:+ " keys"))).
Proof.
  intros H coin customerId keyType.
  assert (needs_fresh_key config req s →
          provisionMasterKey config world coin customerId s = (r, s1) →
          (∃ i k,
             needs_fresh_key config req s
             ∧ list_find (MasterKey.unassigned keyType) (DB.masterKeys s) = Some (i, k)
             ∧ (r = Return (i, k) ∨ r = Throw (Rejected "sendMailQ"))
             ∧ DB.masterKeys s1 =
               alter (MasterKey.assign coin customerId keyType) i (DB.masterKeys s)
             ∧ DB.walletKeys s1 = DB.walletKeys s)
          ∨ (needs_fresh_key config req s
             ∧ list_find (MasterKey.unassigned keyType) (DB.masterKeys s) = None
             ∧ s1 = s
             ∧ r = Throw (ErrorResponse 500
                            ("no available " +:+ to_string keyType +:+ " keys")))) as Hp.
  { intros Hfresh. rewrite provisionMasterKey_run. cbv zeta. fold coin keyType.
    destruct (list_find _ _) as [[i k]|]; [|intros [= <- <-]; right; done].
    left. exists i, k. split; [done|]. split; [done|].
    destruct (bool_decide _ && negb _).
    - destruct (World.sendMailQ _ _ _ _ _); injection H0 as <- <-; auto.
    - injection H0 as <- <-. auto. }
  unfold select in H. destruct (is_xlm config req) eqn:Hx.
  { right. apply Hp; [by left | done]. }
  rewrite getMasterXpub_run in H.
  destruct (Config.neverReuseMasterKey config) eqn:Hn.
  { right. apply Hp; [right; by left | done]. }
  destruct (list_find (MasterKey.assigned_to _ _) _) as [[i k]|] eqn:Hf.
  - left. injection H as <- <-. exists i, k. done.
  - right. apply Hp; [right; by right | done].
Qed.

(** The ways a whole request can go. *)
Lemma provisionKey_cases req s r s' :
  provisionKey config world req s = (r, s') →
  (s' = s ∧ ∃ status message, r = Throw (ErrorResponse status message))
  ∨ (well_formed config req = true
     ∧ authorised config (Request.requesterId req) (Request.requesterSecret req)
     ∧ ∃ e, select config world req s = (Throw e, s') ∧ r = Throw e)
  ∨ (well_formed config req = true
     ∧ authorised config (Request.requesterId req) (Request.requesterSecret req)
     ∧ ∃ i masterKey s1 r0,
         select config world req s = (Return (i, masterKey), s1)
         ∧ side_effects config world req
             (signed masterKey (issued config world req masterKey))
             (existing_user req s)
             (persisted i (issued config world req masterKey) s1) = (r0, s')
         ∧ r = match r0 with
               | Return _ => Return (response config world req masterKey)
               | Throw e => Throw e
               end).
Proof.
  intros H.
  destruct (well_formed config req) eqn:Hwf; cycle 1.
  { destruct (provisionKey_invalid config world req s Hwf) as [message E].
    rewrite E in H. injection H as <- <-. left. eauto. }
  rewrite (provisionKey_run _ _ _ _ Hwf), checkRequester_requireRequester in H.
  destruct (requireRequester_spec config (Request.requesterId req)
              (Request.requesterSecret req) s) as [[Ha E]|[_ [message E]]];
    rewrite E in H; cycle 1.
  { injection H as <- <-. left. eauto. }
  right. destruct (select config world req s) as [[[i masterKey]|e] s1] eqn:Hs.
  - right. split; [done|]. split; [done|]. cbv zeta in H.
    destruct (side_effects _ _ _ _ _ _) as [r0 s2] eqn:He.
    exists i, masterKey, s1, r0. split; [done|].
    destruct r0 as [[]|e]; injection H as <- <-; done.
  - left. injection H as <- <-. split; [done|]. split; [done|]. by exists e.
Qed.

(** Updating one element that satisfied the filter with one that does not
    takes exactly one element out of the filtered list. *)
Lemma filter_alter_length {A} (P : A → Prop) `{∀ x, Decision (P x)} (f : A → A) l i x :
  l !! i = Some x → P x → ¬ P (f x) →
  length (filter P l) = S (length (filter P (alter f i l))).
Proof.
  revert i. induction l as [|y l IH]; intros [|i] Hl HP HnP; try discriminate.
  - injection Hl as ->. change (alter f 0%nat (x :: l)) with (f x :: l).
    rewrite (filter_cons_True P x l HP), (filter_cons_False P (f x) l HnP). done.
  - cbn in Hl. change (alter f (S i) (y :: l)) with (y :: alter f i l).
    destruct (decide (P y)) as [Hy|Hy].
    + rewrite !filter_cons_True by done. cbn. f_equal. by apply IH.
    + rewrite !filter_cons_False by done. by apply IH.
Qed.

(** Updating the first match in place keeps it the first match, as long
    as it still matches. *)
Lemma list_find_alter_here {A} (P : A → Prop) `{∀ x, Decision (P x)} (f : A → A) l i x :
  l !! i = Some x → P (f x) →
  (∀ j y, l !! j = Some y → (j < i)%nat → ¬ P y) →
  list_find P (alter f i l) = Some (i, f x).
Proof.
  intros Hl HP Hbefore. apply list_find_Some. split; [|split; [done|]].
  - by rewrite list_lookup_alter_eq, Hl.
  - intros j y Hj Hlt. rewrite list_lookup_alter_ne in Hj by lia. eauto.
Qed.
End Paths.

(** * Provisioning and the lookups together *)

(** X5.  After a provisioning request returned normally, [isUserKey]
    asked for the public key of the response, with the credentials the
    request carried, answers that it is a wallet key.  The public key
    has to be non-empty: [isUserKey] takes an empty [pub] for a missing
    one. *)
Theorem provisioned_key_is_found config world req s resp s' query :
  provisionKey config world req s = (Return resp, s') →
  truthy (Response.pub resp) = true →
  PubQuery.pub query = Response.pub resp →
  PubQuery.requesterId query = Request.requesterId req →
  PubQuery.requesterSecret query = Request.requesterSecret req →
  isUserKey config query s'
  = (Return {| PubAnswer.pub := Response.pub resp; PubAnswer.isWalletKey := true |}, s').
Proof.
  intros H Hpub Hq Hid Hsecret.
  apply provisionKey_Return_inv in H as (_ & Hc & i & masterKey & s1 & Hs & -> & He).
  destruct (provisionKey_Return_store _ _ _ _ _ _ _ _ Hs He) as (_ & Hw & _).
  rewrite <- Hq. apply isUserKey_found with (key := issued config world req masterKey).
  - by rewrite Hq.
  - rewrite Hid, Hsecret. rewrite checkRequester_requireRequester in Hc.
    destruct (requireRequester_spec config (Request.requesterId req)
                (Request.requesterSecret req) s) as [[Ha _]|[_ [message E]]]; [done|].
    rewrite E in Hc. discriminate.
  - rewrite Hw. apply elem_of_app. right. by apply list_elem_of_singleton.
  - by rewrite Hq.
Qed.

Lemma provisioned_key_is_found_witness :
  isUserKey Example.config (Scenario.credentials_pub "xpub-A/2")
    (Scenario.after Example.config Example.world (Example.request "c1" "btc") Example.db)
  = (Return {| PubAnswer.pub := Some "xpub-A/2"; PubAnswer.isWalletKey := true |},
     Scenario.after Example.config Example.world (Example.request "c1" "btc") Example.db).
Proof.
  eapply (provisioned_key_is_found Example.config Example.world
            (Example.request "c1" "btc") Example.db
            (response Example.config Example.world (Example.request "c1" "btc")
               Example.used_key));
    [vm_compute; reflexivity | reflexivity ..].
Defined.

(** X6.  After a provisioning request returned normally, [isUser] asked
    for the request's [userEmail], with the credentials the request
    carried, answers that it is a user. *)
Theorem provisioned_owner_is_user config world req s resp s' query :
  provisionKey config world req s = (Return resp, s') →
  EmailQuery.email query = Request.userEmail req →
  EmailQuery.requesterId query = Request.requesterId req →
  EmailQuery.requesterSecret query = Request.requesterSecret req →
  isUser config query s'
  = (Return {| EmailAnswer.email := Request.userEmail req; EmailAnswer.isUser := true |}, s').
Proof.
  intros H Hq Hid Hsecret.
  apply provisionKey_Return_inv in H as (Hwf & Hc & i & masterKey & s1 & Hs & -> & He).
  destruct (provisionKey_Return_store _ _ _ _ _ _ _ _ Hs He) as (_ & Hw & _).
  rewrite <- Hq. apply isUser_found with (key := issued config world req masterKey).
  - rewrite Hq. unfold well_formed in Hwf. by apply andb_true_iff in Hwf as [_ ?].
  - rewrite Hid, Hsecret. rewrite checkRequester_requireRequester in Hc.
    destruct (requireRequester_spec config (Request.requesterId req)
                (Request.requesterSecret req) s) as [[Ha _]|[_ [message E]]]; [done|].
    rewrite E in Hc. discriminate.
  - rewrite Hw. apply elem_of_app. right. by apply list_elem_of_singleton.
  - by rewrite Hq.
Qed.

Lemma provisioned_owner_is_user_witness :
  isUser Example.config (Scenario.credentials_email "owner@example.com")
    (Scenario.after Example.config Example.world (Example.request "c1" "xlm") Example.db)
  = (Return {| EmailAnswer.email := Some "owner@example.com"; EmailAnswer.isUser := true |},
     Scenario.after Example.config Example.world (Example.request "c1" "xlm") Example.db).
Proof.
  eapply (provisioned_owner_is_user Example.config Example.world
            (Example.request "c1" "xlm") Example.db
            (response Example.config Example.world (Example.request "c1" "xlm")
               (Example.pool_key "xlm" "G-1")));
    [vm_compute; reflexivity | reflexivity ..].
Defined.

(** * What a request may do to the collections *)

Section Invariants.
Variable config : Config.t.
Variable world : World.t.

Lemma evolves_refl k : evolves k k.
Proof. unfold evolves. auto 10. Qed.

Lemma evolves_inc k : evolves k (MasterKey.inc_keyCount k).
Proof. unfold evolves. cbn. auto 10. Qed.

Lemma evolves_assign coin customerId k :
  MasterKey.unassigned (MasterKey.type k) k →
  evolves k (MasterKey.assign coin customerId (MasterKey.type k) k)
  ∧ evolves k (MasterKey.inc_keyCount
                 (MasterKey.assign coin customerId (MasterKey.type k) k)).
Proof.
  intros (Hc & Hid & _). unfold evolves, owned. cbn.
  split; (repeat (split; [auto; fail|])); intros [?|?]; congruence.
Qed.

(** One position of the master keys changes at most, and the document
    there [evolves]. *)
Lemma provisionKey_masterKeys req s r s' :
  provisionKey config world req s = (r, s') →
  ∃ f i,
    DB.masterKeys s' = alter f i (DB.masterKeys s)
    ∧ ∀ k, DB.masterKeys s !! i = Some k → evolves k (f k).
Proof.
  intros H.
  apply provisionKey_cases in H
    as [[-> _]|[(_ & _ & e & Hs & _)|(_ & _ & i & masterKey & s1 & r0 & Hs & He & _)]].
  - exists id, 0%nat. split; [by rewrite list_alter_id|]. intros. apply evolves_refl.
  - apply select_cases in Hs
      as [(? & ? & ? & _)|[(i & k & _ & Hf & _ & Hm & _)|(_ & _ & -> & _)]]; [done| |].
    + apply list_find_Some in Hf as (Hi & Hu & _).
      eexists _, i. split; [exact Hm|]. intros k' Hk'.
      assert (k' = k) as -> by congruence.
      destruct Hu as (Hc & Hid & Ht). rewrite <- Ht. by apply evolves_assign.
    + exists id, 0%nat. split; [by rewrite list_alter_id|]. intros. apply evolves_refl.
  - destruct (side_effects_appends _ _ _ _ _ _ _ _ He) as (Hm & _). cbn in Hm.
    apply select_cases in Hs
      as [(? & ? & [= <- <-] & -> & _)|[(j & k & _ & Hf & [[= <- <-]|?] & Hm1 & _)
                                       |(_ & _ & _ & ?)]]; try done.
    + eexists _, i. split; [exact Hm|]. intros. apply evolves_inc.
    + apply list_find_Some in Hf as (Hi & Hu & _).
      eexists _, i. split; [by rewrite Hm, Hm1, list_alter_alter_eq|]. intros k' Hk'.
      assert (k' = masterKey) as -> by congruence. cbn.
      destruct Hu as (Hc & Hid & Ht). rewrite <- Ht. by apply evolves_assign.
Qed.
End Invariants.

(** X7.  Whatever a provisioning request ends in, the MasterKey
    collection keeps its size and every document keeps its [pub], [type]
    and [signature]; its [keyCount] stays or goes up by one; a document
    that was assigned to somebody keeps its [coin] and [customerId].  The
    WalletKey collection is left alone or gets one document appended. *)
Theorem provisionKey_keeps_keys config world req s r s' :
  provisionKey config world req s = (r, s') →
  length (DB.masterKeys s') = length (DB.masterKeys s)
  ∧ (∀ j k, DB.masterKeys s !! j = Some k →
       ∃ k', DB.masterKeys s' !! j = Some k' ∧ evolves k k')
  ∧ (DB.walletKeys s' = DB.walletKeys s
     ∨ ∃ key, DB.walletKeys s' = (DB.walletKeys s ++ [key])%list).
Proof.
  intros H. destruct (provisionKey_masterKeys _ _ _ _ _ _ H) as (f & i & Hm & Hf).
  split; [by rewrite Hm, length_alter|]. split.
  - intros j k Hj. rewrite Hm. destruct (decide (i = j)) as [->|Hne].
    + rewrite list_lookup_alter_eq, Hj. eexists. split; [done|]. by apply Hf.
    + rewrite list_lookup_alter_ne by done. exists k. split; [done|]. apply evolves_refl.
  - apply provisionKey_cases in H
      as [[-> _]|[(_ & _ & e & Hs & _)|(_ & _ & i' & masterKey & s1 & r0 & Hs & He & _)]].
    + by left.
    + left. by destruct (select_frame _ _ _ _ _ _ Hs).
    + right. destruct (side_effects_appends _ _ _ _ _ _ _ _ He) as (_ & Hw & _).
      destruct (select_frame _ _ _ _ _ _ Hs) as [Hw1 _].
      eexists. rewrite Hw. cbn. by rewrite Hw1.
Qed.

Lemma provisionKey_keeps_keys_witness :
  ∃ k',
    DB.masterKeys
      (Scenario.after Example.config Scenario.no_mail (Example.request "c1" "btc") Example.db)
    !! 0%nat = Some k'
    ∧ evolves Example.used_key k'.
Proof.
  apply (proj1 (proj2 (provisionKey_keeps_keys Example.config Scenario.no_mail
                         (Example.request "c1" "btc") Example.db _ _
                         (surjective_pairing _)))).
  reflexivity.
Defined.

(** X8.  A claim that finds an unassigned master key of the type takes
    exactly one document out of the unassigned ones of that type, also
    when the low-supply mail it sends is rejected; a claim that finds
    none had none to take and changes nothing.  (The coin or the customer
    has to be given: assigning a key to nobody leaves it in the pool.) *)
Theorem claim_consumes_one config world coin customerId s r s' :
  let keyType := get (Config.supportedcoins config) coin in
  provisionMasterKey config world coin customerId s = (r, s') →
  coin ≠ None ∨ customerId ≠ None →
  (remaining keyType s = remaining keyType s' + 1
   ∧ ((∃ key, r = Return key) ∨ r = Throw (Rejected "sendMailQ")))
  ∨ (remaining keyType s = 0 ∧ s' = s ∧ ∃ message, r = Throw (ErrorResponse 500 message)).
Proof.
  intros keyType. rewrite provisionMasterKey_run. cbv zeta. fold keyType.
  destruct (list_find _ _) as [[i k]|] eqn:Hf; intros H Hgiven.
  - left.
    assert (remaining keyType s
            = remaining keyType (claimed i keyType coin customerId s) + 1) as Hcount.
    { apply list_find_Some in Hf as (Hi & Hu & _). unfold remaining. cbn.
      rewrite (filter_alter_length _ (MasterKey.assign coin customerId keyType) _ i k Hi Hu).
      - lia.
      - intros (Hc & Hid & _). cbn in Hc, Hid. destruct Hgiven; congruence. }
    destruct (bool_decide _ && negb _).
    + destruct (World.sendMailQ _ _ _ _ _); injection H as <- <-; eauto.
    + injection H as <- <-. eauto.
  - right. injection H as <- <-. split; [|split; [done | by eexists]].
    apply list_find_None in Hf. unfold remaining.
    assert (filter (MasterKey.unassigned keyType) (DB.masterKeys s) = []) as ->; [|done].
    induction Hf as [|k l Hk _ IH]; [done|]. by rewrite filter_cons_False.
Qed.

Lemma claim_consumes_one_witness :
  remaining (Some "xlm") Scenario.db
  = remaining (Some "xlm")
      (provisionMasterKey Example.config Example.world (Some "xlm") (Some "c1")
         Scenario.db).2 + 1.
Proof.
  destruct (claim_consumes_one Example.config Example.world (Some "xlm") (Some "c1")
              Scenario.db _ _ (surjective_pairing _)) as [(H & _)|(H & _)].
  - by left.
  - exact H.
  - vm_compute in H. discriminate.
Defined.

(** * The owner e-mail *)

Section Mail.
Variable config : Config.t.
Variable world : World.t.

Lemma is_owner_mail_is_mail e : is_mail e = false → is_owner_mail e = false.
Proof. by destruct e as [| | |? ? ? []| | | |]. Qed.

(** The whole of the owner e-mail step. *)
Lemma notifyOwner_run req key existingUser s :
  notifyOwner config world req key existingUser s =
  if mail_enabled config req then
    (if mail_resolves world (owner_mail config key existingUser)
     then Return () else Throw (ErrorResponse 503 "Problem sending email"),
     DB.log (owner_mail config key existingUser) s)
  else (Return (), s).
Proof.
  unfold notifyOwner. fold (mail_enabled config req).
  destruct (mail_enabled config req); [|done].
  cbv beta iota delta [try_catch sendMailQ mbind Co_bind emit write settle
                       mail_resolves owner_mail owner_template].
  destruct existingUser; destruct (World.sendMailQ _ _ _ _ _); reflexivity.
Qed.

Lemma syncMailchimp_no_mail userEmail existingUser :
  appends (λ e, is_mail e = false) (syncMailchimp config world userEmail existingUser).
Proof.
  unfold syncMailchimp, createMember, addTagToMember, console_log. solve_appends.
Qed.

Lemma notifyEndpoint_no_mail key state :
  appends (λ e, is_mail e = false) (notifyEndpoint config world key state).
Proof.
  unfold notifyEndpoint, generateHMAC, request_post, console_log. solve_appends.
Qed.

(** What follows the owner e-mail sends no mail. *)
Lemma after_owner_mail_no_mail req key existingUser :
  appends (λ e, is_mail e = false)
    (_ ← syncMailchimp config world (Request.userEmail req) existingUser;
     if truthy (WalletKey.notificationURL key)
     then notifyEndpoint config world key "created"
     else mret ()).
Proof.
  apply appends_bind; [apply syncMailchimp_no_mail|]. intros _.
  destruct (truthy _); [apply notifyEndpoint_no_mail | apply appends_mret].
Qed.

(** The events of a selection: the assignment, and the low-supply mail if
    service mail is on. *)
Lemma select_emits (P : Event → Prop) req s r s1 :
  select config world req s = (r, s1) →
  (∀ i coin customerId, P (FindOneAndUpdate i coin customerId)) →
  (Config.disableAllKRSEmail config = false → ∀ n keyType, P (low_supply_mail config n keyType)) →
  ∃ evs, DB.events s1 = (DB.events s ++ evs)%list ∧ Forall P evs.
Proof.
  intros H Hclaim Hlow.
  assert (∀ coin customerId,
            provisionMasterKey config world coin customerId s = (r, s1) →
            ∃ evs, DB.events s1 = (DB.events s ++ evs)%list ∧ Forall P evs) as Hp.
  { intros coin customerId. rewrite provisionMasterKey_run. cbv zeta.
    destruct (list_find _ _) as [[i k]|].
    - destruct (bool_decide _ && negb _) eqn:Hb; intros [= _ <-].
      + apply andb_true_iff in Hb as [_ Hd]. apply negb_true_iff in Hd.
        eexists [_; _]. split; [cbn; by rewrite <- app_assoc|].
        repeat constructor; auto.
      + eexists [_]. split; [done|]. repeat constructor; auto.
    - intros [= _ <-]. exists []. by rewrite app_nil_r. }
  unfold select in H. destruct (is_xlm config req); [by eapply Hp|].
  rewrite getMasterXpub_run in H.
  destruct (Config.neverReuseMasterKey config); [by eapply Hp|].
  destruct (list_find _ _); [|by eapply Hp].
  injection H as _ <-. exists []. by rewrite app_nil_r.
Qed.
End Mail.

(** X9.  When the owner e-mail is due and the mail queue rejects it, the
    request ends with the 503 error "Problem sending email" after the
    WalletKey was saved and the master key's [keyCount] raised: nothing
    is rolled back, and neither Mailchimp nor the webhook is called. *)
Theorem owner_mail_failure config world req s i masterKey s1 :
  let key := issued config world req masterKey in
  let mail := owner_mail config (signed masterKey key) (existing_user req s) in
  well_formed config req = true →
  authorised config (Request.requesterId req) (Request.requesterSecret req) →
  select config world req s = (Return (i, masterKey), s1) →
  mail_enabled config req = true →
  mail_resolves world mail = false →
  provisionKey config world req s
  = (Throw (ErrorResponse 503 "Problem sending email"), DB.log mail (persisted i key s1)).
Proof.
  intros key mail Hwf Ha Hs Hon Hfail.
  rewrite (provisionKey_run _ _ _ _ Hwf), checkRequester_requireRequester,
    (requireRequester_pass _ _ _ _ Ha), Hs.
  cbv zeta. unfold side_effects. rewrite bind_run, notifyOwner_run, Hon.
  fold key. fold mail. by rewrite Hfail.
Qed.

Lemma owner_mail_failure_witness :
  ∃ s',
    provisionKey Example.config Scenario.no_mail (Example.request "c1" "btc") Example.db
    = (Throw (ErrorResponse 503 "Problem sending email"), s')
    ∧ length (DB.walletKeys s') = 1%nat
    ∧ MasterKey.keyCount <$> DB.masterKeys s' !! 0%nat = Some 3.
Proof.
  eexists. split.
  - apply (owner_mail_failure Example.config Scenario.no_mail
             (Example.request "c1" "btc") Example.db 0 Example.used_key Example.db).
    + vm_compute. reflexivity.
    + intros auth [= <-] _. exists "s3cret". split; [discriminate|].
      split; vm_compute; reflexivity.
    + vm_compute. reflexivity.
    + reflexivity.
    + reflexivity.
  - split; reflexivity.
Defined.

(** X10.  When the caller sets [disableKRSEmail], or the service is
    configured with [disableAllKRSEmail] or [sendMailChimpNotKRSEMail], a
    provisioning request sends no owner e-mail, whatever it ends in; with
    [disableAllKRSEmail] it sends no mail at all, the low-supply warning
    included. *)
Theorem owner_mail_suppressed config world req s r s' :
  provisionKey config world req s = (r, s') →
  mail_enabled config req = false →
  ∃ evs,
    DB.events s' = (DB.events s ++ evs)%list
    ∧ Forall (λ e, is_owner_mail e = false) evs
    ∧ (Config.disableAllKRSEmail config = true → Forall (λ e, is_mail e = false) evs).
Proof.
  intros H Hoff.
  set (P := λ e, is_owner_mail e = false
                 ∧ (Config.disableAllKRSEmail config = true → is_mail e = false)).
  assert (∃ evs, DB.events s' = (DB.events s ++ evs)%list ∧ Forall P evs)
    as (evs & Hev & HP).
  { assert (∀ s0 r0 s1, select config world req s0 = (r0, s1) →
              ∃ evs, DB.events s1 = (DB.events s0 ++ evs)%list ∧ Forall P evs) as Hsel.
    { intros s0 r0 s1 Hs. eapply select_emits; [exact Hs| |].
      - by split.
      - intros Hd n keyType. split; [done|]. congruence. }
    apply provisionKey_cases in H
      as [[-> _]|[(_ & _ & e & Hs & _)|(_ & _ & i & masterKey & s1 & r0 & Hs & He & _)]].
    - exists []. by rewrite app_nil_r.
    - by eapply Hsel.
    - destruct (Hsel _ _ _ Hs) as (evs1 & E1 & F1).
      unfold side_effects in He. rewrite bind_run, notifyOwner_run, Hoff in He.
      apply after_owner_mail_no_mail in He as (_ & _ & evs2 & E2 & F2).
      eexists (evs1 ++ Save _ :: UpdateInc i :: evs2)%list. split.
      + rewrite E2. cbn. rewrite E1. by rewrite <- !app_assoc.
      + apply Forall_app. split; [done|]. repeat (constructor; [by split|]).
        eapply Forall_impl; [exact F2|]. intros e He'. split; [|done].
        by apply is_owner_mail_is_mail. }
  exists evs. split; [done|]. split.
  - eapply Forall_impl; [exact HP|]. by intros e [? _].
  - intros Hd. eapply Forall_impl; [exact HP|]. intros e [_ ?]. auto.
Qed.

Lemma owner_mail_suppressed_witness :
  ∃ evs,
    DB.events
      (Scenario.after Example.config Example.world
         (Scenario.without_mail (Example.request "c1" "btc")) Example.db)
    = (DB.events Example.db ++ evs)%list
    ∧ Forall (λ e, is_owner_mail e = false) evs
    ∧ (Config.disableAllKRSEmail Example.config = true
       → Forall (λ e, is_mail e = false) evs).
Proof.
  apply (owner_mail_suppressed Example.config Example.world
           (Scenario.without_mail (Example.request "c1" "btc")) Example.db _ _
           (surjective_pairing _)).
  reflexivity.
Defined.

(** X11.  A provisioning request that returns normally with the owner
    e-mail due sent exactly one owner e-mail, to the request's
    [userEmail] and about the public key of the response, and sent it
    right after it had saved the WalletKey with that public key and
    raised the master key's [keyCount]; what follows the mail is neither
    mail nor a write to the collections.  The template is
    "existingUserNewKeyTemplate" when a WalletKey with that [userEmail]
    existed before the request and "newkeytemplate" when none did: the
    key the request itself saved does not count. *)
Theorem owner_mail_template config world req s resp s' :
  provisionKey config world req s = (Return resp, s') →
  mail_enabled config req = true →
  ∃ template early saved i rest,
    DB.events s' =
      (DB.events s ++ early ++
       Save saved ::
       UpdateInc i ::
       SendMailQ (Request.userEmail req) "BitGo Wallet: ACTION REQUIRED" template
         (NewKey (Response.pub resp) (Config.name config) (Config.serviceurl config)
            (Config.adminemail config) (Request.userEmail req)) :: rest)%list
    ∧ WalletKey.pub saved = Response.pub resp
    ∧ DB.walletKeys s' = (DB.walletKeys s ++ [saved])%list
    ∧ Forall (λ e, is_owner_mail e = false ∧ ∀ key, e ≠ Save key) early
    ∧ Forall (λ e, is_mail e = false ∧ is_store_write e = false) rest
    ∧ ((∃ k, k ∈ DB.walletKeys s ∧ WalletKey.userEmail k = Request.userEmail req)
       → template = "existingUserNewKeyTemplate")
    ∧ ((∀ k, k ∈ DB.walletKeys s → WalletKey.userEmail k ≠ Request.userEmail req)
       → template = "newkeytemplate").
Proof.
  intros H Hon.
  apply provisionKey_Return_inv in H as (_ & _ & i & masterKey & s1 & Hs & -> & He).
  destruct (select_emits config world
              (λ e, is_owner_mail e = false ∧ ∀ key, e ≠ Save key) _ _ _ _ Hs)
    as (evs1 & E1 & F1); [done..|].
  destruct (provisionKey_Return_store _ _ _ _ _ _ _ _ Hs He)
    as (_ & Hw & evs & Eall & Fall).
  unfold side_effects in He. rewrite bind_run, notifyOwner_run, Hon in He.
  destruct (mail_resolves _ _); [|discriminate].
  apply after_owner_mail_no_mail in He as (_ & _ & evs2 & E2 & F2).
  assert (evs = owner_mail config
                  (signed masterKey (issued config world req masterKey))
                  (existing_user req s) :: evs2) as ->.
  { rewrite Eall in E2. cbn in E2. rewrite <- !app_assoc in E2. cbn in E2.
    apply app_inv_head in E2. by injection E2. }
  apply Forall_cons in Fall as [_ Fall].
  exists (owner_template (existing_user req s)), evs1,
    (issued config world req masterKey), i, evs2.
  split_and!.
  - rewrite Eall, E1. unfold signed.
    destruct (truthy (MasterKey.signature masterKey)); cbn; by rewrite <- !app_assoc.
  - done.
  - done.
  - done.
  - apply Forall_forall. intros e Hin. rewrite Forall_forall in F2, Fall. auto.
  - intros Hex. unfold existing_user. rewrite bool_decide_eq_true_2; [done|].
    by apply list_find_is_Some.
  - intros Hnone. unfold existing_user. rewrite bool_decide_eq_false_2; [done|].
    intros (k & Hin & Hk)%list_find_is_Some. by apply (Hnone k).
Qed.

Lemma owner_mail_template_witness :
  ∃ template early saved i rest,
    DB.events
      (Scenario.after Example.config Example.world (Example.request "c1" "btc") Example.db)
    = (DB.events Example.db ++ early ++
       Save saved ::
       UpdateInc i ::
       SendMailQ (Some "owner@example.com") "BitGo Wallet: ACTION REQUIRED" template
         (NewKey (Some "xpub-A/2") "KRS" "https://krs.example" "admin@krs.example"
            (Some "owner@example.com")) :: rest)%list
    ∧ WalletKey.pub saved = Some "xpub-A/2"
    ∧ template = "newkeytemplate".
Proof.
  destruct (owner_mail_template Example.config Example.world
              (Example.request "c1" "btc") Example.db
              (response Example.config Example.world (Example.request "c1" "btc")
                 Example.used_key)
              (Scenario.after Example.config Example.world (Example.request "c1" "btc")
                 Example.db))
    as (template & early & saved & i & rest & Hev & Hpub & _ & _ & _ & _ & Hnew);
    [vm_compute; reflexivity | reflexivity |].
  exists template, early, saved, i, rest. split; [exact Hev|]. split; [exact Hpub|].
  apply Hnew. intros k Hk. by apply elem_of_nil in Hk.
Defined.

(** * One request after another *)

Section Sequences.
Variable config : Config.t.
Variable world : World.t.

(** The master keys after a request that went through, from the ones the
    selection left. *)
Lemma provisionKey_Return_masterKeys req s resp s' :
  provisionKey config world req s = (Return resp, s') →
  ∃ i masterKey s1,
    select config world req s = (Return (i, masterKey), s1)
    ∧ resp = response config world req masterKey
    ∧ well_formed config req = true
    ∧ DB.masterKeys s' = alter MasterKey.inc_keyCount i (DB.masterKeys s1).
Proof.
  intros H.
  apply provisionKey_Return_inv in H as (Hwf & _ & i & masterKey & s1 & Hs & -> & He).
  destruct (provisionKey_Return_store _ _ _ _ _ _ _ _ Hs He) as (Hm & _).
  by exists i, masterKey, s1.
Qed.

Lemma well_formed_coin req :
  well_formed config req = true → Request.coin req ≠ None.
Proof.
  unfold well_formed. rewrite !andb_true_iff. intros [[[_ H] _] _].
  by destruct (Request.coin req).
Qed.
End Sequences.

(** X12.  With master-key reuse on, two provisioning requests in a row
    for the same derivable coin and the same customer that both return
    normally are served from the same master key, and the path of the
    second is the path of the first plus one. *)
Theorem consecutive_paths config world req1 req2 s resp1 s1 resp2 s2 :
  provisionKey config world req1 s = (Return resp1, s1) →
  provisionKey config world req2 s1 = (Return resp2, s2) →
  Request.coin req2 = Request.coin req1 →
  Request.customerId req2 = Request.customerId req1 →
  is_xlm config req1 = false →
  Config.neverReuseMasterKey config = false →
  Response.masterKey resp2 = Response.masterKey resp1
  ∧ ∃ path, Response.path resp1 = Some path ∧ Response.path resp2 = Some (path + 1).
Proof.
  intros H1 H2 Hcoin Hid Hx Hn.
  apply provisionKey_Return_masterKeys in H1 as (i & k & t & Hs1 & -> & _ & Hm).
  apply provisionKey_Return_masterKeys in H2 as (i2 & k2 & t2 & Hs2 & -> & _ & _).
  set (coin := Request.coin req1) in *. set (customerId := Request.customerId req1) in *.
  (* the first request leaves its key as the first one assigned to the pair *)
  assert (∃ k', same_key k' k
                ∧ list_find (MasterKey.assigned_to coin customerId) (DB.masterKeys s1)
                  = Some (i, MasterKey.inc_keyCount k')) as (k' & Hsame & Hfind).
  { apply select_cases in Hs1
      as [(? & ? & [= <- <-] & -> & _ & _ & Hf)
         |[(j & kj & Hfresh & Hf & [[= <- <-]|?] & Hm1 & _)|(_ & _ & _ & ?)]]; try done.
    - exists k. split; [done|]. rewrite Hm.
      apply list_find_Some in Hf as (Hi & Ha & Hbefore).
      by apply list_find_alter_here.
    - destruct Hfresh as [?|[?|Hnone]]; [congruence..|].
      apply list_find_Some in Hf as (Hi & _ & _).
      exists (MasterKey.assign coin customerId
                (get (Config.supportedcoins config) coin) k).
      split; [done|]. rewrite Hm, Hm1, list_alter_alter_eq.
      apply (list_find_alter_here _
               (MasterKey.inc_keyCount
                  ∘ MasterKey.assign coin customerId
                      (get (Config.supportedcoins config) coin)) _ i k Hi);
        [by split|].
      intros j y Hj _. apply list_find_None in Hnone. rewrite Forall_forall in Hnone.
        apply Hnone. eapply list_elem_of_lookup_2. exact Hj. }
  (* the second request finds it *)
  unfold select in Hs2.
  assert (is_xlm config req2 = false) as Hx2 by (unfold is_xlm in *; by rewrite Hcoin).
  rewrite Hx2, getMasterXpub_run, Hn, Hcoin, Hid in Hs2. fold coin customerId in Hs2.
  rewrite Hfind in Hs2. injection Hs2 as <- <- <-.
  destruct Hsame as (Hpub & Hcount & _). cbn. split; [done|].
  exists (MasterKey.keyCount k). by rewrite Hcount.
Qed.

Lemma consecutive_paths_witness :
  let req := Example.request "c9" "btc" in
  let first := provisionKey Example.config Example.world req Example.db in
  let second := provisionKey Example.config Example.world req first.2 in
  ∃ resp1 resp2,
    first.1 = Return resp1
    ∧ second.1 = Return resp2
    ∧ Response.masterKey resp2 = Response.masterKey resp1
    ∧ ∃ path, Response.path resp1 = Some path ∧ Response.path resp2 = Some (path + 1).
Proof.
  intros req first second.
  exists (response Example.config Example.world req (Example.pool_key "xpub" "xpub-B")),
    (response Example.config Example.world req
       (MasterKey.inc_keyCount
          (MasterKey.assign (Some "btc") (Some "c9") (Some "xpub")
             (Example.pool_key "xpub" "xpub-B")))).
  split; [vm_compute; reflexivity|]. split; [vm_compute; reflexivity|].
  apply (consecutive_paths Example.config Example.world req req Example.db
           _ first.2 _ second.2); vm_compute; reflexivity.
Defined.

(** X13.  When the public keys of the master keys are all different,
    two provisioning requests in a row that both claim a master key (a
    single-use coin, or reuse switched off) and both return normally name
    different master keys in their responses: a key that was claimed is
    not handed out again. *)
Theorem fresh_keys_distinct config world req1 req2 s resp1 s1 resp2 s2 :
  provisionKey config world req1 s = (Return resp1, s1) →
  provisionKey config world req2 s1 = (Return resp2, s2) →
  always_fresh config req1 →
  always_fresh config req2 →
  NoDup (MasterKey.pub <$> DB.masterKeys s) →
  Response.masterKey resp2 ≠ Response.masterKey resp1.
Proof.
  intros H1 H2 Hf1 Hf2 Hnodup.
  apply provisionKey_Return_masterKeys in H1 as (i & k & t & Hs1 & -> & Hwf & Hm).
  apply provisionKey_Return_masterKeys in H2 as (i2 & k2 & t2 & Hs2 & -> & _ & _).
  apply well_formed_coin in Hwf.
  apply select_cases in Hs1
    as [(? & ? & _ & _ & Hx & Hn & _)
       |[(j & kj & _ & Hfind1 & [[= <- <-]|?] & Hm1 & _)|(_ & _ & _ & ?)]]; try done.
  { destruct Hf1; congruence. }
  apply select_cases in Hs2
    as [(? & ? & _ & _ & Hx & Hn & _)
       |[(j & kj & _ & Hfind2 & [[= <- <-]|?] & _)|(_ & _ & _ & ?)]]; try done.
  { destruct Hf2; congruence. }
  apply list_find_Some in Hfind1 as (Hi & _ & _).
  apply list_find_Some in Hfind2 as (Hi2 & Hu2 & _).
  rewrite Hm, Hm1, list_alter_alter_eq in Hi2.
  assert (i2 ≠ i) as Hne.
  { intros ->. rewrite list_lookup_alter_eq, Hi in Hi2. injection Hi2 as <-.
    destruct Hu2 as (Hc & _). cbn in Hc. congruence. }
  rewrite list_lookup_alter_ne in Hi2 by done.
  cbn. intros Hpub. apply Hne.
  eapply (NoDup_lookup _ i2 i (MasterKey.pub k)); [exact Hnodup| |].
  - by rewrite list_lookup_fmap, Hi2, <- Hpub.
  - by rewrite list_lookup_fmap, Hi.
Qed.

Lemma fresh_keys_distinct_witness :
  let req := Example.request "c1" "xlm" in
  let first := provisionKey Example.config Example.world req Scenario.db in
  let second := provisionKey Example.config Example.world req first.2 in
  ∃ resp1 resp2,
    first.1 = Return resp1
    ∧ second.1 = Return resp2
    ∧ Response.masterKey resp2 ≠ Response.masterKey resp1.
Proof.
  intros req first second.
  exists (response Example.config Example.world req (Example.pool_key "xlm" "G-1")),
    (response Example.config Example.world req (Example.pool_key "xlm" "G-2")).
  split; [vm_compute; reflexivity|]. split; [vm_compute; reflexivity|].
  apply (fresh_keys_distinct Example.config Example.world req req Scenario.db
           _ first.2 _ second.2);
    [vm_compute; reflexivity | vm_compute; reflexivity | by left | by left |].
  apply (bool_decide_unpack _). vm_compute. exact I.
Defined.

(** X14.  When a claim has to send the low-supply warning and the mail
    queue rejects it, the rejection ends [provisionMasterKey] and the
    provisioning request: the master key stays assigned to the (coin,
    customer) pair, but no WalletKey is written and no [keyCount] is
    raised. *)
Theorem low_supply_mail_failure config world req s i key :
  let coin := Request.coin req in
  let customerId := Request.customerId req in
  let keyType := get (Config.supportedcoins config) coin in
  let s1 := claimed i keyType coin customerId s in
  let n := remaining keyType s1 in
  well_formed config req = true →
  authorised config (Request.requesterId req) (Request.requesterSecret req) →
  needs_fresh_key config req s →
  list_find (MasterKey.unassigned keyType) (DB.masterKeys s) = Some (i, key) →
  n ∈ Config.lowKeyWarningLevels config →
  Config.disableAllKRSEmail config = false →
  mail_resolves world (low_supply_mail config n keyType) = false →
  provisionKey config world req s
  = (Throw (Rejected "sendMailQ"), DB.log (low_supply_mail config n keyType) s1)
  ∧ DB.masterKeys s1 !! i = Some (MasterKey.assign coin customerId keyType key)
  ∧ DB.walletKeys s1 = DB.walletKeys s.
Proof.
  intros coin customerId keyType s1 n Hwf Ha Hfresh Hf Hin Hd Hfail.
  assert (provisionMasterKey config world coin customerId s
          = (Throw (Rejected "sendMailQ"), DB.log (low_supply_mail config n keyType) s1))
    as Hp.
  { rewrite provisionMasterKey_run. cbv zeta. fold coin keyType. rewrite Hf.
    fold s1. fold n. rewrite bool_decide_eq_true_2, Hd by done. cbn [andb negb].
    cbn in Hfail. unfold low_supply_subject in Hfail |- *. by rewrite Hfail. }
  split; [|split; [|done]].
  - rewrite (provisionKey_run _ _ _ _ Hwf), checkRequester_requireRequester,
      (requireRequester_pass _ _ _ _ Ha).
    unfold select. fold coin customerId.
    destruct (is_xlm config req) eqn:Hx; [by rewrite Hp|].
    rewrite getMasterXpub_run.
    destruct Hfresh as [?|[->| Hnone]]; [congruence | by rewrite Hp|].
    fold coin customerId in Hnone. rewrite Hnone, Hp.
    by destruct (Config.neverReuseMasterKey config).
  - apply list_find_Some in Hf as (Hi & _). unfold s1. cbn.
    by rewrite list_lookup_alter_eq, Hi.
Qed.

Lemma low_supply_mail_failure_witness :
  ∃ s',
    provisionKey Example.config Scenario.no_mail (Example.request "c2" "btc") Example.db
    = (Throw (Rejected "sendMailQ"), s')
    ∧ MasterKey.customerId <$> DB.masterKeys s' !! 2%nat = Some (Some "c2")
    ∧ DB.walletKeys s' = [].
Proof.
  eexists. split.
  - refine (proj1 (low_supply_mail_failure Example.config Scenario.no_mail
                     (Example.request "c2" "btc") Example.db 2
                     (Example.pool_key "xpub" "xpub-B") _ _ _ _ _ _ _)).
    + vm_compute. reflexivity.
    + intros auth [= <-] _. exists "s3cret". split; [discriminate|].
      split; vm_compute; reflexivity.
    + right. right. vm_compute. reflexivity.
    + vm_compute. reflexivity.
    + vm_compute. apply elem_of_cons. by left.
    + reflexivity.
    + reflexivity.
  - split; reflexivity.
Defined.

(** * Reuse and the pool; the response and the saved document *)

(** Updating an element the filter rejects, before and after, leaves the
    filtered list as it is. *)
Lemma filter_alter_out {A} (P : A → Prop) `{∀ x, Decision (P x)} (f : A → A)
    (l : list A) (i : nat) x :
  l !! i = Some x → ¬ P x → ¬ P (f x) →
  filter P (alter f i l) = filter P l.
Proof.
  revert i. induction l as [|y l IH]; intros [|i] Hl HP HnP; try discriminate.
  - injection Hl as ->. change (alter f 0%nat (x :: l)) with (f x :: l).
    by rewrite !filter_cons_False.
  - cbn in Hl. change (alter f (S i) (y :: l)) with (y :: alter f i l).
    destruct (decide (P y)).
    + rewrite !filter_cons_True by done. f_equal. by eapply IH.
    + rewrite !filter_cons_False by done. by eapply IH.
Qed.

(** X15.  A provisioning request that is served from a master key
    already assigned to its (coin, customer) pair takes nothing from the
    pool, whatever the request ends in: for every key type, as many
    master keys are unassigned after it as before. *)
Theorem reuse_leaves_pool config world req s r s' i key :
  provisionKey config world req s = (r, s') →
  is_xlm config req = false →
  Config.neverReuseMasterKey config = false →
  list_find (MasterKey.assigned_to (Request.coin req) (Request.customerId req))
    (DB.masterKeys s) = Some (i, key) →
  ∀ keyType, remaining keyType s' = remaining keyType s.
Proof.
  intros H Hx Hn Hf keyType.
  assert (select config world req s = (Return (i, key), s)) as Hs.
  { unfold select. by rewrite Hx, getMasterXpub_run, Hn, Hf. }
  apply provisionKey_cases in H
    as [[-> _]|[(_ & _ & e & He & _)|(Hwf & _ & j & k & s1 & r0 & Hs' & He & _)]];
    [done | congruence |].
  rewrite Hs in Hs'. injection Hs' as <- <- <-.
  destruct (side_effects_appends _ _ _ _ _ _ _ _ He) as (Hm & _). cbn in Hm.
  apply list_find_Some in Hf as (Hi & (Hcoin & _) & _).
  apply well_formed_coin in Hwf.
  unfold remaining. rewrite Hm.
  rewrite (filter_alter_out _ MasterKey.inc_keyCount _ i key Hi); [done| |];
    intros (Hc & _); cbn in Hc; congruence.
Qed.

Lemma reuse_leaves_pool_witness :
  remaining (Some "xpub")
    (Scenario.after Example.config Example.world (Example.request "c1" "btc") Example.db)
  = remaining (Some "xpub") Example.db.
Proof.
  apply (reuse_leaves_pool Example.config Example.world (Example.request "c1" "btc")
           Example.db _ _ 0 Example.used_key (surjective_pairing _));
    vm_compute; reflexivity.
Defined.

(** X16.  The response of a provisioning request describes the WalletKey
    the request saved: the last document of the collection carries the
    response's [pub], [path], [userEmail] and [custom], its [masterKey]
    is the response's [masterKey], the response's [masterKeySig] is the
    signature of the master key document the request drew on, and that
    document's [keyCount] is now the response's [path] plus one. *)
Theorem response_matches_saved config world req s resp s' :
  provisionKey config world req s = (Return resp, s') →
  ∃ saved i masterKey,
    DB.walletKeys s' = (DB.walletKeys s ++ [saved])%list
    ∧ WalletKey.pub saved = Response.pub resp
    ∧ WalletKey.path saved = Response.path resp
    ∧ WalletKey.userEmail saved = Response.userEmail resp
    ∧ WalletKey.custom saved = Response.custom resp
    ∧ WalletKey.masterKey saved = Some (Response.masterKey resp)
    ∧ DB.masterKeys s' !! i = Some masterKey
    ∧ MasterKey.pub masterKey = Response.masterKey resp
    ∧ MasterKey.signature masterKey = Response.masterKeySig resp
    ∧ Some (MasterKey.keyCount masterKey) = (λ path, path + 1) <$> Response.path resp.
Proof.
  intros H.
  apply provisionKey_Return_inv in H as (_ & _ & i & masterKey & s1 & Hs & -> & He).
  destruct (provisionKey_Return_store _ _ _ _ _ _ _ _ Hs He) as (Hm & Hw & _).
  destruct (select_lookup _ _ _ _ _ _ _ Hs) as (k' & Hl & Hpub & Hcount & Hsig).
  exists (issued config world req masterKey), i, (MasterKey.inc_keyCount k').
  repeat (split; [done|]).
  split; [by rewrite Hm, list_lookup_alter_eq, Hl|]. cbn.
  split; [done|]. split; [done|]. by rewrite Hcount.
Qed.

Lemma response_matches_saved_witness :
  ∃ saved,
    DB.walletKeys
      (Scenario.after Example.config Example.world (Example.request "c1" "btc") Example.db)
    = [saved]
    ∧ WalletKey.pub saved = Some "xpub-A/2"
    ∧ WalletKey.masterKey saved = Some "xpub-A".
Proof.
  destruct (response_matches_saved Example.config Example.world
              (Example.request "c1" "btc") Example.db
              (response Example.config Example.world (Example.request "c1" "btc")
                 Example.used_key)
              (Scenario.after Example.config Example.world (Example.request "c1" "btc")
                 Example.db))
    as (saved & i & masterKey & Hw & Hpub & _ & _ & _ & Hmaster & _);
    [vm_compute; reflexivity|].
  exists saved. split; [exact Hw|]. split; [exact Hpub | exact Hmaster].
Defined.
